(** * Ecofoodai image recognition: fusion of the visual classifier with OCR text

    A shallow embedding of [image_recognition.py] (the recognizer the
    application imports, with the strict text filter) and of
    [image_recognition_new.py] (the earlier variant, with the permissive
    filter), followed by the properties of the fusion logic.

    Conventions of the embedding.
    - A Python [str] is a list of Unicode code points ([N]); [len] is the
      list length.  Literals are written as in the source and decoded from
      UTF-8 by [u].
    - A Python [float] is an exact rational ([Q]); decimal literals keep
      their decimal value, so rounding of binary floating point is not
      modelled.
    - A call that may raise returns [result]; [try_except] is the
      [try: ... except Exception: ...] statement.
    - A dictionary with a fixed set of keys is a record; a key that may be
      absent is an [option] field; a dictionary that is iterated is an
      association list in insertion order. *)

From Stdlib Require Import List Bool Arith NArith ZArith QArith Lia Lqa.
From Stdlib Require Import Ascii String Sorted.
Import ListNotations.

Set Implicit Arguments.

(** ** Python strings *)

Definition char := N.
Definition str := list char.

(** UTF-8 decoding of a source literal into code points. *)
Fixpoint utf8_decode (fuel : nat) (bs : list N) : str :=
  match fuel with
  | O => []
  | S fuel' =>
    match bs with
    | [] => []
    | b0 :: r0 =>
      if (b0 <? 128)%N then b0 :: utf8_decode fuel' r0
      else if (b0 <? 224)%N then
        match r0 with
        | b1 :: r1 => ((b0 - 192) * 64 + (b1 - 128))%N :: utf8_decode fuel' r1
        | _ => []
        end
      else if (b0 <? 240)%N then
        match r0 with
        | b1 :: b2 :: r2 =>
          ((b0 - 224) * 4096 + (b1 - 128) * 64 + (b2 - 128))%N
            :: utf8_decode fuel' r2
        | _ => []
        end
      else
        match r0 with
        | b1 :: b2 :: b3 :: r3 =>
          ((b0 - 240) * 262144 + (b1 - 128) * 4096
           + (b2 - 128) * 64 + (b3 - 128))%N :: utf8_decode fuel' r3
        | _ => []
        end
    end
  end.

Definition u (s : string) : str :=
  let bs := List.map N_of_ascii (list_ascii_of_string s) in
  utf8_decode (List.length bs) bs.

Definition ch (s : string) : char :=
  match u s with c :: _ => c | [] => 0%N end.

(** Character classes of CPython's Unicode database, tabulated for
    U+0000..U+00FF; white space is tabulated for the whole code space.  A
    code point above U+00FF that is not white space is classified as a
    symbol (neither letter nor number, unchanged by case mapping), which is
    what the euro sign U+20AC of the price pattern is. *)
Definition in_range (lo hi c : N) : bool := ((lo <=? c) && (c <=? hi))%N.

Definition isspace (c : char) : bool :=
  in_range 9 13 c || in_range 28 32 c || (c =? 133)%N || (c =? 160)%N
  || (c =? 5760)%N || in_range 8192 8202 c || in_range 8232 8233 c
  || (c =? 8239)%N || (c =? 8287)%N || (c =? 12288)%N.

Definition isalpha (c : char) : bool :=
  in_range 65 90 c || in_range 97 122 c
  || (c =? 170)%N || (c =? 181)%N || (c =? 186)%N
  || in_range 192 214 c || in_range 216 246 c || in_range 248 255 c.

(** [\d] of [re] on a [str] pattern, [str.isdecimal]. *)
Definition isdecimal (c : char) : bool := in_range 48 57 c.

(** [str.isnumeric] (it includes [isdecimal] and [isdigit]). *)
Definition isnumeric (c : char) : bool :=
  isdecimal c || in_range 178 179 c || (c =? 185)%N || in_range 188 190 c.

Definition isalnum (c : char) : bool := isalpha c || isnumeric c.

(** [\w] of [re] on a [str] pattern: alphanumeric or underscore. *)
Definition is_word (c : char) : bool := isalnum c || (c =? 95)%N.

Definition lower_char (c : char) : char :=
  if in_range 65 90 c then (c + 32)%N
  else if in_range 192 222 c && negb (c =? 215)%N then (c + 32)%N
  else c.

(** First character of [str.capitalize] (title case, CPython >= 3.8). *)
Definition title_char (c : char) : str :=
  if in_range 97 122 c then [(c - 32)%N]
  else if in_range 224 254 c && negb (c =? 247)%N then [(c - 32)%N]
  else if (c =? 223)%N then [83; 115]%N
  else if (c =? 255)%N then [376]%N
  else if (c =? 181)%N then [924]%N
  else [c].

Definition len (A : Type) (l : list A) : nat := List.length l.

Definition is_empty (A : Type) (l : list A) : bool :=
  match l with [] => true | _ :: _ => false end.

(** Truth value of a string or list: non-empty. *)
Definition truthy (A : Type) (l : list A) : bool := negb (is_empty l).

Definition lower (s : str) : str := List.map lower_char s.

Definition capitalize (s : str) : str :=
  match s with
  | [] => []
  | c :: r => title_char c ++ lower r
  end.

Definition str_eqb (a b : str) : bool :=
  if list_eq_dec N.eq_dec a b then true else false.

(** [x in l] for a list of strings. *)
Definition mem (x : str) (l : list str) : bool := existsb (str_eqb x) l.

Fixpoint lstrip (s : str) : str :=
  match s with
  | c :: r => if isspace c then lstrip r else s
  | [] => []
  end.

Definition rstrip (s : str) : str := rev (lstrip (rev s)).

Definition strip (s : str) : str := rstrip (lstrip s).

(** [w.isalpha()] on a whole string: non-empty and letters only. *)
Definition str_isalpha (w : str) : bool := truthy w && forallb isalpha w.

(** Fields of [s] between the characters that satisfy [sep]. *)
Fixpoint fields (sep : char -> bool) (s : str) : list str :=
  match s with
  | [] => [[]]
  | c :: r =>
    if sep c then [] :: fields sep r
    else match fields sep r with
         | w :: ws => (c :: w) :: ws
         | [] => [[c]]
         end
  end.

(** [s.split(c)] for a one-character separator. *)
Definition split_on (c : char) (s : str) : list str := fields (N.eqb c) s.

(** [s.split()]: maximal runs of non-white-space. *)
Definition split (s : str) : list str := filter (@truthy char) (fields isspace s).

(** [sep.join(l)]. *)
Fixpoint join (sep : str) (l : list str) : str :=
  match l with
  | [] => []
  | [x] => x
  | x :: r => x ++ sep ++ join sep r
  end.

Fixpoint startswith (p s : str) : bool :=
  match p, s with
  | [], _ => true
  | a :: p', b :: s' => (a =? b)%N && startswith p' s'
  | _ :: _, [] => false
  end.

(** [sub in s] for strings. *)
Fixpoint contains (sub s : str) : bool :=
  startswith sub s
  || match s with [] => false | _ :: r => contains sub r end.

(** [s.replace(old, new)] for a one-character [old]. *)
Definition replace_char (old : char) (new : str) (s : str) : str :=
  flat_map (fun c => if (c =? old)%N then new else [c]) s.

(** [sum(p(c) for c in s)]. *)
Definition count (p : char -> bool) (s : str) : nat :=
  List.length (filter p s).

(** [max(l, key=len)]: the first element of maximal length. *)
Fixpoint max_by_len (best : str) (l : list str) : str :=
  match l with
  | [] => best
  | w :: r => if len best <? len w then max_by_len w r else max_by_len best r
  end.

(** Python floats as rationals. *)
Definition of_nat (n : nat) : Q := inject_Z (Z.of_nat n).
Definition Qgtb (a b : Q) : bool := negb (Qle_bool a b).
Definition Qltb (a b : Q) : bool := negb (Qle_bool b a).

(** ** The fragment of [re] the recognizer uses

    Repetition is only ever applied to a character class in the source's
    patterns.  Matching follows the backtracking order of [re]: the left
    alternative first, greedy repetition longest first, lazy repetition
    shortest first. *)
Inductive regex : Type :=
| Lit (s : str)                    (* literal text *)
| Cls (p : char -> bool)           (* one character of a class *)
| Seq (a b : regex)
| Alt (a b : regex)
| StarG (p : char -> bool)         (* p*  *)
| StarL (p : char -> bool)         (* p*? *)
| Opt (p : char -> bool).          (* p?  *)

Definition PlusG (p : char -> bool) : regex := Seq (Cls p) (StarG p).

(** The line feed, ['\n']. *)
Definition LF : char := 10%N.
Definition newline : str := [LF].

(** [.] matches anything but a newline. *)
Definition dot (c : char) : bool := negb (c =? LF)%N.

Fixpoint strip_prefix (p s : str) : option str :=
  match p, s with
  | [], _ => Some s
  | a :: p', b :: s' => if (a =? b)%N then strip_prefix p' s' else None
  | _ :: _, [] => None
  end.

Definition or_else (A : Type) (a : option A) (b : option A) : option A :=
  match a with Some x => Some x | None => b end.

(** [re_match r s k]: match [r] at the start of [s], then continue with [k]
    on the rest; the first success in backtracking order is returned. *)
Fixpoint re_match (A : Type) (r : regex) (s : str) (k : str -> option A)
  : option A :=
  match r with
  | Lit l => match strip_prefix l s with Some s' => k s' | None => None end
  | Cls p =>
    match s with
    | c :: s' => if p c then k s' else None
    | [] => None
    end
  | Seq a b => re_match a s (fun s' => re_match b s' k)
  | Alt a b => or_else (re_match a s k) (re_match b s k)
  | StarG p =>
    (fix go (s : str) : option A :=
       match s with
       | c :: s' => if p c then or_else (go s') (k s) else k s
       | [] => k s
       end) s
  | StarL p =>
    (fix go (s : str) : option A :=
       or_else (k s)
         match s with
         | c :: s' => if p c then go s' else None
         | [] => None
         end) s
  | Opt p =>
    match s with
    | c :: s' => if p c then or_else (k s') (k s) else k s
    | [] => k s
    end
  end.

(** [re.search(r, s)]: the leftmost match; the result is [group(0)]. *)
Fixpoint re_search (r : regex) (s : str) : option str :=
  match re_match r s (fun rest => Some rest) with
  | Some rest => Some (firstn (len s - len rest) s)
  | None =>
    match s with
    | [] => None
    | _ :: s' => re_search r s'
    end
  end.

(** A sequence of patterns, and a class given by its characters. *)
Definition cat (l : list regex) : regex := fold_right Seq (Lit []) l.

Definition one_of (cs : str) (c : char) : bool := existsb (N.eqb c) cs.

Definition is_some (A : Type) (o : option A) : bool :=
  match o with Some _ => true | None => false end.

(** [re.sub(cls, repl, s)] for a pattern that is one character class. *)
Definition re_sub_class (cls : char -> bool) (repl : str) (s : str) : str :=
  flat_map (fun c => if cls c then repl else [c]) s.

(** [re.sub(r'\s+', ' ', s)]: every maximal run of white space becomes one
    space; [in_run] tells that the previous character was white space. *)
Fixpoint collapse_from (in_run : bool) (s : str) : str :=
  match s with
  | [] => []
  | c :: r =>
    if isspace c then
      if in_run then collapse_from true r else 32%N :: collapse_from true r
    else c :: collapse_from false r
  end.

Definition collapse_spaces (s : str) : str := collapse_from false s.

(** ** Exceptions *)
Inductive result (A : Type) : Type :=
| Ok (a : A)
| Raise.
Arguments Raise {A}.

Definition bind (A B : Type) (m : result A) (k : A -> result B) : result B :=
  match m with
  | Ok a => k a
  | Raise => Raise
  end.

Notation "x <- m ;; k" := (bind m (fun x => k))
  (at level 61, m at next level, right associativity).

(** [try: body except Exception: handler]. *)
Definition try_except (A : Type) (body handler : result A) : result A :=
  match body with
  | Ok a => Ok a
  | Raise => handler
  end.

(** [l[i]] with Python's negative indices; out of range raises. *)
Definition index (A : Type) (l : list A) (i : Z) : result A :=
  let n := Z.of_nat (len l) in
  let j := if (i <? 0)%Z then (i + n)%Z else i in
  if ((j <? 0) || (n <=? j))%Z then Raise
  else match nth_error l (Z.to_nat j) with
       | Some a => Ok a
       | None => Raise
       end.

(** ** What the external collaborators return

    [image]: the decoded picture as the OCR engine sees it, one field per
    call of [extract_text] that may raise.  [image_file]: the uploaded
    file, with the outcome of [preprocess_image] and of the forward pass,
    softmax and [topk] on it.  The model weights and [self.categories] are
    the recognizer's. *)
Record image : Type := {
  convert_L : result unit;
      (* img.convert('L') *)
  ocr_sparse : result str;
      (* image_to_string(gray_img, config='--psm 11 --oem 3') *)
  ocr_contrast : result str;
      (* Contrast(gray_img).enhance(2.0), then
         image_to_string(high_contrast, config='--psm 6 --oem 3') *)
  ocr_mhd : result str
      (* image_to_string(gray_img, config='--psm 3 -c
         tessedit_char_whitelist=...') *)
}.

Record image_file : Type := {
  preprocess_image : result image;
      (* the picture kept for OCR; raises on an unreadable file *)
  top5_prob : result (list Q);
      (* the five largest softmax outputs; raises if the model does *)
  top5_indices : list Z
      (* their label indices *)
}.

Record ImageRecognizer : Type := {
  categories : list str
}.

(** A registry entry or a synthesized product:
    [{"name": .., "description": .., "confidence_boost": ..}]. *)
Record product : Type := {
  name : str;
  description : str;
  confidence_boost : Q
}.

(** One element of the list [predict] returns.  The keys [extracted_text]
    and [identified_by_text] are absent from some entries. *)
Record prediction : Type := {
  class_id : Z;
  class_name : str;
  class_description : str;
  confidence : Q;
  extracted_text : option str;
  identified_by_text : option bool
}.

(** ** Code that is the same text in both files *)

(** [class_name.lower().replace(' ', '_').replace("'", '').replace(',', '')] *)
Definition slug (class_name : str) : str :=
  replace_char (ch ",") (u "")
    (replace_char (ch "'") (u "")
       (replace_char (ch " ") (u "_") (lower class_name))).

(** The loop over [enumerate(zip(top5_indices, top5_prob))], appending to
    [results]; [i] is the index of the head of [pairs]. *)
Fixpoint visual_results (self : ImageRecognizer) (extracted : str)
    (text_based_product : option product) (i : nat) (pairs : list (Z * Q))
    (results : list prediction) : result (list prediction) :=
  match pairs with
  | [] => Ok results
  | (idx, prob) :: rest =>
    class_name <- index (categories self) idx ;;
    let class_name_slug := slug class_name in
    let result :=
      {| class_id := idx;
         class_name := class_name_slug;
         class_description := class_name;
         confidence := prob;
         extracted_text :=
           if (i =? 0)%nat && truthy extracted
              && negb (is_some text_based_product)
           then Some extracted else None;
         identified_by_text := None |} in
    visual_results self extracted text_based_product (S i) rest
                   (results ++ [result])
  end.

(** One iteration of the loop of [identify_product_from_text] over the
    registry; the state is [(best_match, best_score)]. *)
Definition scan_step (text_lower : str) (st : option product * Q)
    (entry : str * product) : option product * Q :=
  let '(best_match, best_score) := st in
  let '(key, product) := entry in
  if contains (lower key) text_lower then
    let score := (of_nat (len key) * confidence_boost product)%Q in
    if Qgtb score best_score then (Some product, score)
    else (best_match, best_score)
  else (best_match, best_score).

(** ** image_recognition.py *)
Module image_recognition.

(** [extract_text]: three OCR passes; the second and the third have a
    [try] of their own, the first has only the outer one. *)
Definition extract_text (img : image) : result str :=
  try_except
    (let results := [] in
     _ <- convert_L img ;;
     text1 <- ocr_sparse img ;;
     let results := if truthy (strip text1) then results ++ [text1] else results in
     results <- try_except
                  (text2 <- ocr_contrast img ;;
                   Ok (if truthy (strip text2) then results ++ [text2]
                       else results))
                  (Ok results) ;;
     results <- try_except
                  (text3 <- ocr_mhd img ;;
                   Ok (if truthy (strip text3) then results ++ [text3]
                       else results))
                  (Ok results) ;;
     let all_text := join newline results in
     let text_lines :=
       List.map strip
         (filter (fun line => truthy (strip line)) (split_on LF all_text)) in
     let clean_text := join (u " ") text_lines in
     Ok clean_text)
    (Ok (u "")).

Definition common_german_words : list str := List.map u
  ["und"; "der"; "die"; "das"; "mit"; "für"; "von"; "bei"; "aus"; "Buch";
   "Text"; "Wort"; "Preis"; "Euro"; "Kauf"; "Geld"; "Zeit"; "Jahr"; "Leben";
   "Mensch"; "Mann"; "Frau"; "Kind"; "Stadt"; "Land"; "Haus"; "Auto"; "Wasser";
   "Essen"; "Milch"; "Brot"; "Zucker"; "Salz"; "Butter"; "Käse"; "Fleisch";
   "Obst"; "Gemüse"; "Wein"; "Bier"; "Hotel"; "Restaurant"; "Schule"; "Arbeit";
   "Schrift"; "Brief"; "Post"; "Zeitung"; "Markt"; "Straße"; "Zimmer"; "Tisch";
   "Stuhl"; "Bett"; "Küche"; "Bad"; "Wohnung"; "Fenster"; "Tür"; "Dach"; "Wand";
   "Mehl"; "Weizen"; "Weißmehl"; "Weizenmehl"; "Vollkorn"; "Vollkornmehl"; "Teig";
   "Teigwaren"; "Pasta"; "Spaghetti"; "Nudel"; "Nudeln"; "Reis"; "Kartoffel";
   "Kartoffeln"; "Getränk"; "Getränke"; "Cola"; "Limonade"; "Saft"; "Apfel";
   "Banane"; "Orange"; "Birne"; "Erdbeere"; "Himbeere"; "Brombeere";
   "Heidelbeere"]%string.

(** The class [[^\w\säöüÄÖÜß]]. *)
Definition not_word_space_umlaut (c : char) : bool :=
  negb (is_word c || isspace c || one_of (u "äöüÄÖÜß") c).

(** [(weizen|mehl|weizenmehl|vollkorn).*?typ\s*\d+] *)
Definition re_mehl_typ : regex :=
  cat [Alt (Lit (u "weizen")) (Alt (Lit (u "mehl"))
         (Alt (Lit (u "weizenmehl")) (Lit (u "vollkorn"))));
       StarL dot; Lit (u "typ"); StarG isspace; PlusG isdecimal].

(** [\d+[,.]\d+\s*€] *)
Definition re_price : regex :=
  cat [PlusG isdecimal; Cls (one_of (u ",.")); PlusG isdecimal;
       StarG isspace; Lit (u "€")].

(** [ISBN.*?\d[-\s]?\d] *)
Definition re_isbn : regex :=
  cat [Lit (u "ISBN"); StarL dot; Cls isdecimal;
       Opt (fun c => (c =? ch "-")%N || isspace c); Cls isdecimal].

(** Number of [i] in [range(len(words) - 1)] with [words[i]] and
    [words[i+1]] both alphabetic. *)
Fixpoint consecutive_words (words : list str) : nat :=
  match words with
  | w1 :: ((w2 :: _) as r) =>
    ((if str_isalpha w1 && str_isalpha w2 then 1 else 0)
     + consecutive_words r)%nat
  | _ => 0%nat
  end.

Definition is_meaningful_text (text : str) : bool :=
  if negb (truthy text) || (len (strip text) <? 6)%nat then false else
  let special_chars_count :=
    count (fun c => negb (isalnum c) && negb (isspace c)) text in
  if Qgtb (of_nat special_chars_count / (of_nat (len text) + 0.001)) 0.3
  then false else
  let cleaned_text := re_sub_class not_word_space_umlaut (u "") text in
  let cleaned_text := strip cleaned_text in
  if (len cleaned_text <? 6)%nat then false else
  let words := split cleaned_text in
  let meaningful_words :=
    filter (fun w => (5 <=? len w)%nat && str_isalpha w) words in
  if (len meaningful_words <? 1)%nat then false else
  let known_words :=
    List.map lower
      (filter (fun w => mem (lower w) common_german_words) words) in
  let returned : option bool :=
    if (2 <=? len known_words)%nat
       || ((1 <=? len known_words)%nat && (2 <=? len meaningful_words)%nat)
    then
      let letters := count isalpha cleaned_text in
      if Qgtb (of_nat letters / (of_nat (len cleaned_text) + 0.001)) 0.7 then
        if (0 <? consecutive_words words)%nat then Some true
        else
          let longer_known_words :=
            filter (fun w => (6 <=? len w)%nat) known_words in
          if truthy longer_known_words then Some true else Some false
      else None
    else None in
  match returned with
  | Some b => b
  | None =>
    if is_some (re_search re_mehl_typ (lower cleaned_text)) then true
    else if contains (u "www.") (lower text) && contains (u ".de") (lower text)
    then true
    else if is_some (re_search re_price text) then true
    else if is_some (re_search re_isbn text) then true
    else false
  end.

Definition filter_words : list str := List.map u
  ["typ"; "type"; "ml"; "l"; "g"; "kg"; "m"; "cm"; "mm"; "the"; "und"]%string.

Definition common_product_words : list str := List.map u
  ["Mehl"; "Weizenmehl"; "Zucker"; "Salz"; "Milch"; "Brot"; "Wasser";
   "Butter"; "Käse"; "Buch"; "ISBN"; "Roman"; "Kaffee"; "Tee"; "Wein"]%string.

(** [(Typ|TYP|Type)\s*\d+] *)
Definition re_typ : regex :=
  cat [Alt (Lit (u "Typ")) (Alt (Lit (u "TYP")) (Lit (u "Type")));
       StarG isspace; PlusG isdecimal].

Definition get_best_text_for_title (text : str) : str :=
  if negb (truthy text) then u "Text" else
  let cleaned_text := re_sub_class not_word_space_umlaut (u " ") text in
  let cleaned_text := strip (collapse_spaces cleaned_text) in
  if negb (truthy cleaned_text) || (len cleaned_text <? 3)%nat then u "Text"
  else
  let words := split cleaned_text in
  let meaningful_words :=
    filter
      (fun word =>
         let word_lower := lower word in
         if (len word <? 3)%nat || mem word_lower filter_words then false
         else
           let letter_count := count isalpha word in
           Qgtb (of_nat letter_count / (of_nat (len word) + 0.001)) 0.5)
      words in
  if negb (truthy meaningful_words) then
    match re_search re_typ cleaned_text with
    | Some group0 => capitalize group0
    | None => u "Text"
    end
  else
  match
    find (fun product_word =>
            contains (lower product_word) (lower cleaned_text))
         common_product_words
  with
  | Some product_word => product_word
  | None =>
    match meaningful_words with
    | [] => u "Objekt"
    | first :: rest =>
      let longest_word := max_by_len first rest in
      if (5 <=? len longest_word)%nat then capitalize longest_word
      else if (len meaningful_words =? 1)%nat then capitalize first
      else
        let title := join (u " ") (firstn 2 meaningful_words) in
        let title :=
          if (20 <? len title)%nat then firstn 17 title ++ u "..."
          else title in
        capitalize title
    end
  end.

(** The dictionary assigned inside [identify_product_from_text]; it hides
    the module-level [PRODUCT_TEXT_MAPPING] of this file. *)
Definition PRODUCT_TEXT_MAPPING : list (str * product) :=
  List.map (fun e : string * (string * string * Q) =>
              let '(key, (n, d, b)) := e in
              (u key, {| name := u n; description := u d;
                         confidence_boost := b |}))
  [("Mehl", ("Mehl", "Weizenmehl", 1.2));
   ("Weizenmehl", ("Weizenmehl", "Weizenmehl", 1.5));
   ("Zucker", ("Zucker", "Zucker", 1.2));
   ("Raffinadezucker", ("Raffinadezucker", "Feiner Zucker", 1.5));
   ("Milch", ("Milch", "Frische Milch", 1.2));
   ("Vollmilch", ("Vollmilch", "Vollmilch", 1.5));
   ("Brot", ("Brot", "Brot", 1.2));
   ("Vollkornbrot", ("Vollkornbrot", "Vollkornbrot", 1.5));
   ("Wasser", ("Wasser", "Mineralwasser", 1.2));
   ("Mineralwasser", ("Mineralwasser", "Mineralwasser", 1.5));
   ("Butter", ("Butter", "Butter", 1.5));
   ("Käse", ("Käse", "Käse", 1.2));
   ("Gouda", ("Gouda", "Gouda Käse", 1.5));
   ("Buch", ("Buch", "Buch", 1.2));
   ("ISBN", ("Buch", "Buch mit ISBN", 1.5));
   ("Roman", ("Roman", "Romanwerk", 1.3));
   ("Kaffee", ("Kaffee", "Kaffee", 1.3));
   ("Tee", ("Tee", "Tee", 1.3));
   ("Zeitung", ("Zeitung", "Tageszeitung", 1.3));
   ("Magazin", ("Magazin", "Zeitschrift", 1.3));
   ("Wein", ("Wein", "Weinflasche", 1.3));
   ("Rotwein", ("Rotwein", "Rotwein", 1.5));
   ("Weißwein", ("Weißwein", "Weißwein", 1.5))]%string.

Definition identify_product_from_text (text : str) : option product :=
  if negb (truthy text) || str_eqb (strip text) (u "") then None else
  let text_lower := lower text in
  let best_match :=
    fst (fold_left (scan_step text_lower) PRODUCT_TEXT_MAPPING (None, 0%Q)) in
  match best_match with
  | Some p => Some p
  | None =>
    if is_meaningful_text text then
      let cleaned_text := get_best_text_for_title text in
      Some {| name := cleaned_text; description := cleaned_text;
              confidence_boost := 0.85 |}
    else None
  end.

Definition text_result (text_based_product : product) (extracted : str)
  : prediction :=
  {| class_id := (-1)%Z;
     class_name := name text_based_product;
     class_description := description text_based_product;
     confidence := (0.95 * confidence_boost text_based_product)%Q;
     extracted_text := Some extracted;
     identified_by_text := Some true |}.

(** The two confidence checks of [predict], from [top_image_confidence] to
    the pair
    [(extracted_text, text_based_product)]. *)
Definition text_channel (top_image_confidence : Q) (original_img : image)
  : result (str * option product) :=
  if Qgtb top_image_confidence 0.75 then Ok (u "", None)
  else
    extracted <- extract_text original_img ;;
    let text_based_product :=
      if is_meaningful_text extracted then
        let text_based_product := identify_product_from_text extracted in
        if Qgtb top_image_confidence 0.4 then
          match text_based_product with
          | None => None
          | Some p => if Qltb (confidence_boost p) 1.2 then None else Some p
          end
        else text_based_product
      else None in
    Ok (extracted, text_based_product).

(** The list [results] of [predict] when the loop is over, before the
    slice [results[:5]]. *)
Definition results_before_slice (self : ImageRecognizer) (file : image_file)
  : result (list prediction) :=
  original_img <- preprocess_image file ;;
  probs <- top5_prob file ;;
  top_image_confidence <- index probs 0 ;;
  let results := [] in
  channel <- text_channel top_image_confidence original_img ;;
  let '(extracted, text_based_product) := channel in
  let results :=
    match text_based_product with
    | Some p => results ++ [text_result p extracted]
    | None => results
    end in
  visual_results self extracted text_based_product 0
    (combine (top5_indices file) probs) results.

Definition predict (self : ImageRecognizer) (file : image_file)
  : result (list prediction) :=
  results <- results_before_slice self file ;;
  Ok (firstn 5 results).

End image_recognition.

(** ** image_recognition_new.py *)
Module image_recognition_new.

Definition PRODUCT_TEXT_MAPPING : list (str * product) :=
  List.map (fun e : string * (string * string * Q) =>
              let '(key, (n, d, b)) := e in
              (u key, {| name := u n; description := u d;
                         confidence_boost := b |}))
  [("Weizenmehl", ("Weizenmehl", "Weizenmehl", 0.8));
   ("Mehl", ("Mehl", "Mehl", 0.6));
   ("TYP 405", ("Weizenmehl_405", "Weizenmehl Type 405", 0.7));
   ("Milch", ("Milch", "Milch", 0.7));
   ("Vollmilch", ("Vollmilch", "Vollmilch", 0.8));
   ("Joghurt", ("Joghurt", "Joghurt", 0.7));
   ("Cola", ("Cola", "Cola", 0.7));
   ("Fanta", ("Fanta", "Fanta", 0.7));
   ("Wasser", ("Wasser", "Wasser", 0.6));
   ("Schokolade", ("Schokolade", "Schokolade", 0.7));
   ("Chips", ("Chips", "Chips", 0.7));
   ("Tomaten", ("Tomaten", "Tomaten", 0.6));
   ("Mais", ("Mais", "Mais", 0.6));
   ("Bio", ("Bio_Produkt", "Bio-Produkt", 0.5));
   ("Zucker", ("Zucker", "Zucker", 0.7));
   ("Salz", ("Salz", "Salz", 0.7))]%string.

(** [extract_text]: one OCR pass. *)
Definition extract_text (img : image) : result str :=
  try_except
    (_ <- convert_L img ;;
     text <- ocr_sparse img ;;
     let text_lines :=
       List.map strip
         (filter (fun line => truthy (strip line)) (split_on LF text)) in
     let clean_text := join (u " ") text_lines in
     Ok clean_text)
    (Ok (u "")).

(** The class [[^\w\s]]. *)
Definition not_word_space (c : char) : bool := negb (is_word c || isspace c).

Definition is_meaningful_text (text : str) : bool :=
  if negb (truthy text) || (len (strip text) <? 3)%nat then false else
  let cleaned_text := re_sub_class not_word_space (u "") text in
  let cleaned_text := strip cleaned_text in
  if (len cleaned_text <? 3)%nat then false else
  let words := split cleaned_text in
  let meaningful_words := filter (fun w => (3 <=? len w)%nat) words in
  if (1 <=? len meaningful_words)%nat then
    let letters := count isalpha cleaned_text in
    if Qgtb (of_nat letters / (of_nat (len cleaned_text) + 0.001)) 0.5
    then true else false
  else false.

(** The class [[^\w\säöüÄÖÜß]]. *)
Definition not_word_space_umlaut (c : char) : bool :=
  negb (is_word c || isspace c || one_of (u "äöüÄÖÜß") c).

Definition get_best_text_for_title (text : str) : str :=
  if negb (truthy text) then u "Text" else
  let cleaned_text := re_sub_class not_word_space_umlaut (u " ") text in
  let cleaned_text := strip (collapse_spaces cleaned_text) in
  if negb (truthy cleaned_text) || (len cleaned_text <? 3)%nat then u "Text"
  else
  let words := split cleaned_text in
  match words with
  | first :: rest =>
    let longest_word := max_by_len first rest in
    if (5 <=? len longest_word)%nat
       && Qle_bool (of_nat (len cleaned_text) * 0.3) (of_nat (len longest_word))
    then capitalize longest_word
    else if (len words =? 1)%nat then capitalize first
    else if (len words =? 2)%nat then capitalize (join (u " ") words)
    else
      let title := join (u " ") (firstn 3 words) in
      let title :=
        if (20 <? len title)%nat then firstn 17 title ++ u "..."
        else title in
      capitalize title
  | [] =>
    if (20 <? len cleaned_text)%nat
    then capitalize (firstn 17 cleaned_text) ++ u "..."
    else capitalize cleaned_text
  end.

Definition identify_product_from_text (text : str) : option product :=
  if negb (truthy text) || str_eqb (strip text) (u "") then None else
  let text_lower := lower text in
  let best_match :=
    fst (fold_left (scan_step text_lower) PRODUCT_TEXT_MAPPING (None, 0%Q)) in
  match best_match with
  | Some p => Some p
  | None =>
    if is_meaningful_text text then
      let cleaned_text := get_best_text_for_title text in
      Some {| name := cleaned_text; description := cleaned_text;
              confidence_boost := 0.9 |}
    else None
  end.

Definition text_result (text_based_product : product) (extracted : str)
  : prediction :=
  {| class_id := (-1)%Z;
     class_name := name text_based_product;
     class_description := description text_based_product;
     confidence := 0.95;
     extracted_text := Some extracted;
     identified_by_text := Some true |}.

(** The list [results] of [predict] when the loop is over, before the
    slice [results[:5]]. *)
Definition results_before_slice (self : ImageRecognizer) (file : image_file)
  : result (list prediction) :=
  original_img <- preprocess_image file ;;
  extracted <- extract_text original_img ;;
  let text_based_product := identify_product_from_text extracted in
  probs <- top5_prob file ;;
  let results := [] in
  let results :=
    match text_based_product with
    | Some p => results ++ [text_result p extracted]
    | None => results
    end in
  visual_results self extracted text_based_product 0
    (combine (top5_indices file) probs) results.

Definition predict (self : ImageRecognizer) (file : image_file)
  : result (list prediction) :=
  results <- results_before_slice self file ;;
  Ok (firstn 5 results).

End image_recognition_new.


(** ** Vocabulary of the properties *)

(** A text-based entry carries [identified_by_text: True]. *)
Definition text_based (e : prediction) : bool :=
  match identified_by_text e with
  | Some true => true
  | _ => false
  end.

(** Number of characters that are neither alphanumeric nor white space. *)
Definition special_chars (text : str) : nat :=
  count (fun c => negb (isalnum c) && negb (isspace c)) text.

(** Share of such characters in the text. *)
Definition noise_ratio (text : str) : Q :=
  (of_nat (special_chars text) / of_nat (len text))%Q.

(** Two adjacent white-space characters somewhere in the string. *)
Fixpoint has_space_run (s : str) : bool :=
  match s with
  | a :: ((b :: _) as r) => (isspace a && isspace b) || has_space_run r
  | _ => false
  end.

(** The image with one OCR pass replaced by a given outcome. *)
Definition with_sparse (r : result str) (img : image) : image :=
  {| convert_L := convert_L img; ocr_sparse := r;
     ocr_contrast := ocr_contrast img; ocr_mhd := ocr_mhd img |}.

Definition with_contrast (r : result str) (img : image) : image :=
  {| convert_L := convert_L img; ocr_sparse := ocr_sparse img;
     ocr_contrast := r; ocr_mhd := ocr_mhd img |}.

Definition with_mhd (r : result str) (img : image) : image :=
  {| convert_L := convert_L img; ocr_sparse := ocr_sparse img;
     ocr_contrast := ocr_contrast img; ocr_mhd := r |}.

(** An OCR outcome that adds nothing: the pass raised or returned blank
    text. *)
Definition blank (r : result str) : bool :=
  match r with
  | Ok t => is_empty (strip t)
  | Raise => true
  end.

(** Sample inputs: a recognizer with six labels, pictures with a given
    text on them, and their classification. *)
Definition sample_recognizer : ImageRecognizer :=
  {| categories := List.map u ["tench"; "goldfish"; "great white shark";
                               "tiger shark"; "hammerhead"; "electric ray"]%string |}.

Definition scan (text : str) : image :=
  {| convert_L := Ok tt; ocr_sparse := Ok text;
     ocr_contrast := Ok (u ""); ocr_mhd := Ok (u "") |}.

Definition picture (text : string) : image := scan (u text).

(** A label printed on two lines, with a blank line between them. *)
Definition two_lines : str :=
  u "  Weizenmehl Type 405" ++ newline ++ newline ++ u " MHD 12.2026  ".

Definition upload (text : string) (probs : list Q) : image_file :=
  {| preprocess_image := Ok (picture text);
     top5_prob := Ok probs;
     top5_indices := [0; 1; 2; 3; 4]%Z |}.

Definition confident : list Q := [0.9; 0.04; 0.03; 0.02; 0.01]%Q.
Definition moderate : list Q := [0.5; 0.2; 0.1; 0.05; 0.05]%Q.
Definition unsure : list Q := [0.3; 0.2; 0.1; 0.05; 0.05]%Q.

(** The list a call returned, empty if it raised. *)
Definition results_of (r : result (list prediction)) : list prediction :=
  match r with
  | Ok l => l
  | Raise => []
  end.

(** The picture of a pack that reads [der Apfel und die Birne], on which
    the classifier is unsure. *)
Definition apfel : image_file := upload "der Apfel und die Birne" unsure.

Definition apfel_entry : prediction :=
  image_recognition.text_result
    {| name := u "Apfel"; description := u "Apfel";
       confidence_boost := 0.85 |}
    (u "der Apfel und die Birne").

Definition apfel_results : list prediction :=
  results_of (image_recognition.predict sample_recognizer apfel).

(** What the loop appends: one entry per classifier result, none of them
    marked as identified by text; an entry carries the extracted text only
    if that text is non-empty and no text-based product was found. *)
Definition visual_of (ex : str) (tbp : option product) (pr : Z * Q)
    (v : prediction) : Prop :=
  class_id v = fst pr /\ confidence v = snd pr
  /\ identified_by_text v = None
  /\ (extracted_text v = None
      \/ (extracted_text v = Some ex /\ truthy ex = true /\ tbp = None)).

(** The head of the list: the text-based entry, if a product was found. *)
Definition text_entries (mk : product -> str -> prediction)
    (tbp : option product) (extracted : str) : list prediction :=
  match tbp with
  | Some p => [mk p extracted]
  | None => []
  end.

(** A text-based entry is the first one, with [class_id] -1 and the mark
    [identified_by_text]. *)
Definition text_entry_first (results : list prediction) : Prop :=
  forall i e,
    nth_error results i = Some e ->
    text_based e = true ->
    i = 0%nat /\ class_id e = (-1)%Z /\ identified_by_text e = Some true.

(** [results] is [full[:5]]; what the slice cuts off is visual, and every
    text-based entry of [full] is still in [results]. *)
Definition slice_keeps_text (full results : list prediction) : Prop :=
  results = firstn 5 full
  /\ Forall (fun e => text_based e = false) (skipn 5 full)
  /\ forall e, In e full -> text_based e = true -> In e results.

(** No key of the registry occurs in the text, case-insensitively. *)
Definition no_keyword (reg : list (str * product)) (text : str) : Prop :=
  Forall (fun entry => contains (lower (fst entry)) (lower text) = false) reg.

(** Descending order, as [topk] returns the probabilities. *)
Definition descending (probs : list Q) : Prop :=
  StronglySorted (fun a b => (b <= a)%Q) probs.

(** The lines of a text as [extract_text] cleans them up. *)
Definition clean_lines (text : str) : str :=
  join (u " ")
    (List.map strip
       (filter (fun line => truthy (strip line)) (split_on LF text))).

(** Neither the first nor the last character is white space. *)
Definition trimmed (s : str) : Prop :=
  lstrip s = s /\ lstrip (rev s) = rev s.

(** A picture whose first pass raises while the contrast pass reads
    [Mehl]. *)
Definition flaky : image :=
  {| convert_L := Ok tt; ocr_sparse := Raise;
     ocr_contrast := Ok (u "Mehl"); ocr_mhd := Ok (u "") |}.

(** The text [Mehl] is a registry keyword, yet too short for the filter. *)
Definition mehl : image_file := upload "Mehl" unsure.

Definition mehl_results : list prediction :=
  results_of (image_recognition.predict sample_recognizer mehl).

(** ** Vocabulary of the further properties *)

(** A visual entry for one classifier result: the label is looked up in
    [self.categories], the name is its slug. *)
Definition labelled (self : ImageRecognizer) (pr : Z * Q) (v : prediction)
  : Prop :=
  class_id v = fst pr
  /\ confidence v = snd pr
  /\ index (categories self) (fst pr) = Ok (class_description v)
  /\ class_name v = slug (class_description v)
  /\ identified_by_text v = None.

(** [len(key) * product["confidence_boost"]], the score of a registry
    entry. *)
Definition score (entry : str * product) : Q :=
  (of_nat (len (fst entry)) * confidence_boost (snd entry))%Q.

(** The key of the entry occurs in the lower-cased text. *)
Definition matches (text_lower : str) (entry : str * product) : bool :=
  contains (lower (fst entry)) text_lower.

(** [not text or text.strip() == ""] *)
Definition blank_text (text : str) : bool :=
  negb (truthy text) || str_eqb (strip text) (u "").

(** The entries of [common_german_words] that are written in lower case. *)
Definition function_words : list str := List.map u
  ["und"; "der"; "die"; "das"; "mit"; "für"; "von"; "bei"; "aus"]%string.

(** What the scan of the registry has established after the entries
    [seen]: no entry matched so far, or the best match so far is an entry
    that matches, carries the best score, and no matching entry scores
    higher. *)
Definition scan_inv (text_lower : str) (seen : list (str * product))
    (st : option product * Q) : Prop :=
  match fst st with
  | None =>
    snd st = 0%Q /\ Forall (fun e => matches text_lower e = false) seen
  | Some p =>
    exists key,
      In (key, p) seen
      /\ matches text_lower (key, p) = true
      /\ snd st = score (key, p)
      /\ Forall (fun e => matches text_lower e = true ->
                          (score e <= snd st)%Q) seen
  end.

(** A pack that reads [der Apfel und die Weizenmehl], on which the
    classifier is moderately confident. *)
Definition weizen : image_file :=
  upload "der Apfel und die Weizenmehl" moderate.

Definition weizen_results : list prediction :=
  results_of (image_recognition.predict sample_recognizer weizen).

(** The text of [image_recognition.py]'s filter after the removal of the
    special characters. *)
Definition cleaned_strict (text : str) : str :=
  strip (re_sub_class image_recognition.not_word_space_umlaut (u "") text).

(** The cleaned lines of one OCR output: split at line feeds, blank lines
    dropped, each line stripped. *)
Definition lines_of (text : str) : list str :=
  List.map strip (filter (fun line => truthy (strip line)) (split_on LF text)).

(** The text an OCR pass contributes: what it returned, nothing if it
    raised. *)
Definition text_of (r : result str) : str :=
  match r with
  | Ok t => t
  | Raise => u ""
  end.

(** The least number of characters a pattern consumes. *)
Fixpoint min_len (r : regex) : nat :=
  match r with
  | Lit l => len l
  | Cls _ => 1
  | Seq a b => min_len a + min_len b
  | Alt a b => Nat.min (min_len a) (min_len b)
  | StarG _ | StarL _ | Opt _ => 0
  end.

(** ** app.py: the routes that use a recognized product *)
Module app.

(** [request.files['image']]: the name of the uploaded file and the file
    itself. *)
Record FileStorage : Type := {
  filename : str;
  stream : image_file
}.

(** The JSON body of a response of [/predict].  The message of an error
    answered with status 500 ends with [str(e)], which is not modelled. *)
Inductive body : Type :=
| predictions (l : list prediction)     (* {'predictions': l} *)
| error (message : str)                 (* {'error': message} *)
| error_with_exception (message : str). (* {'error': message + str(e)} *)

(** The route [/predict].  [files_image] is [request.files.get('image')],
    [session] the value of [session['last_prediction']], if any; the
    result is the body, the status and the session value afterwards. *)
Definition predict (image_recognizer : ImageRecognizer)
    (files_image : option FileStorage) (session : option str)
  : body * Z * option str :=
  match files_image with
  | None => (error (u "Kein Bild hochgeladen"), 400%Z, session)
  | Some file =>
    if str_eqb (filename file) (u "") then
      (error (u "Kein Bild ausgewählt"), 400%Z, session)
    else
      match image_recognition.predict image_recognizer (stream file) with
      | Ok preds =>
        let session :=
          match preds with
          | first :: _ => Some (class_description first)
          | [] => session
          end in
        (predictions preds, 200%Z, session)
      | Raise =>
        (error_with_exception (u "Fehler bei der Bildverarbeitung: "),
         500%Z, session)
      end
  end.

(** [any(item in product_lower for item in items)] *)
Definition any_in (items : list string) (product_lower : str) : bool :=
  existsb (fun item => contains (u item) product_lower) items.

Definition is_dairy (product_lower : str) : bool :=
  any_in ["milch"; "joghurt"; "käse"; "quark"; "sahne"]%string product_lower.

Definition is_egg (product_lower : str) : bool :=
  contains (u "ei") product_lower || contains (u "eier") product_lower.

Definition is_meat (product_lower : str) : bool :=
  any_in ["fleisch"; "wurst"; "schinken"; "hähnchen"; "huhn"]%string
         product_lower.

Definition is_fish (product_lower : str) : bool :=
  any_in ["fisch"; "lachs"; "thunfisch"; "forelle"]%string product_lower.

Definition is_dry_good (product_lower : str) : bool :=
  any_in ["mehl"; "reis"; "nudel"; "pasta"; "zucker"; "salz"]%string
         product_lower.

Definition is_canned (product_lower : str) : bool :=
  any_in ["konserve"; "dose"; "eingemacht"]%string product_lower.

Definition is_oil (product_lower : str) : bool :=
  any_in ["öl"; "fett"]%string product_lower.

(** The dictionary [result] of [/check-expiry]; its key ["product"] is the
    field [product_name]. *)
Record expiry_advice : Type := {
  product_name : str;
  expiry_date : str;
  days_expired : Q;
  is_safe : bool;
  recommendation : str;
  checks : list str
}.

Definition advise (r : expiry_advice) (safe : bool) (text : string)
    (steps : list string) : expiry_advice :=
  {| product_name := product_name r; expiry_date := expiry_date r;
     days_expired := days_expired r; is_safe := safe;
     recommendation := u text; checks := List.map u steps |}.

(** The route [/check-expiry] for a request whose [product] and
    [expiryDate] are strings and whose [daysExpired] is a number. *)
Definition check_expiry (product expiry_date_str : str) (days : Q)
  : expiry_advice :=
  let result :=
    {| product_name := product; expiry_date := expiry_date_str;
       days_expired := days; is_safe := false;
       recommendation :=
         u "Das Produkt hat das MHD überschritten und sollte entsorgt werden.";
       checks := [] |} in
  if Qltb 0 days && Qle_bool days 30 then
    let product_lower := lower product in
    let result :=
      if is_dry_good product_lower then
        advise result true
          "Trockene Lebensmittel wie dieses sind in der Regel auch Monate nach dem MHD noch sicher zu verwenden. Überprüfen Sie Aussehen, Geruch und Geschmack."
          ["Schütten Sie das Produkt in einen Behälter und prüfen Sie, ob Schädlinge sichtbar sind";
           "Prüfen Sie, ob das Produkt normal aussieht und keinen muffigen Geruch hat";
           "Bei normaler Lagerung sollte das Produkt noch verwendbar sein"]%string
      else if is_canned product_lower then
        advise result true
          "Konserven sind oft Jahre nach dem MHD noch sicher. Achten Sie auf Anzeichen wie Rostbildung, Verformung oder sprudelnden Inhalt beim Öffnen."
          ["Prüfen Sie die Dose auf Beschädigungen, Rost oder Ausbeulungen";
           "Wenn die Dose intakt ist und der Inhalt normal riecht, ist er wahrscheinlich sicher"]%string
      else if is_oil product_lower then
        advise result (Qle_bool days 90)
          "Öle können ranzig werden, aber das ist in der Regel kein Gesundheitsrisiko. Vertrauen Sie Ihrem Geruchssinn."
          ["Riechen Sie am Öl - wenn es ranzig oder ungewöhnlich riecht, verwenden Sie es nicht mehr";
           "Wenn Geruch und Aussehen normal sind, ist das Öl wahrscheinlich noch gut"]%string
      else if is_dairy product_lower && Qle_bool days 7 then
        if contains (u "käse") product_lower then
          advise result true
            "Hartkäse ist oft auch nach dem MHD noch gut. Schimmel an der Oberfläche kann bei Hartkäse abgeschnitten werden (mindestens 1 cm unter dem Schimmel)."
            ["Prüfen Sie den Käse auf Schimmel oder ungewöhnliche Verfärbungen";
             "Bei normaler Lagerung im Kühlschrank ist der Käse oft noch einige Tage nach dem MHD genießbar"]%string
        else
          advise result true
            "Milchprodukte können oft noch einige Tage nach dem MHD verzehrt werden. Verlassen Sie sich auf Ihre Sinne."
            ["Prüfen Sie Aussehen, Geruch und Geschmack";
             "Wenn das Produkt normal aussieht, nicht sauer riecht und normal schmeckt, ist es wahrscheinlich noch gut"]%string
      else if is_egg product_lower && Qle_bool days 7 then
        advise result true
          "Eier sind oft noch 1-2 Wochen nach dem MHD genießbar. Der Schwimm-Test kann helfen: Wenn das Ei in Wasser untergeht oder aufrecht steht, ist es meist noch gut."
          ["Machen Sie den Schwimm-Test: Legen Sie das Ei in ein Glas mit Wasser";
           "Wenn es am Boden liegt, ist es frisch; wenn es aufrecht steht, ist es älter aber meist noch gut";
           "Wenn es schwimmt, sollten Sie es entsorgen"]%string
      else if (negb (is_meat product_lower) && negb (is_fish product_lower))
              && Qle_bool days 14 then
        advise result true
          "Dieses Produkt könnte noch gut sein. Prüfen Sie Aussehen, Geruch und Geschmack, bevor Sie es verwenden."
          ["Prüfen Sie, ob das Produkt noch gut aussieht und normal riecht";
           "Eine kleine Probe schmecken - wenn alles normal schmeckt, ist es wahrscheinlich noch in Ordnung";
           "Bei Zweifeln lieber wegwerfen"]%string
      else result in
    if is_meat product_lower || is_fish product_lower then
      advise result false
        "Fleisch und Fisch sollten nach dem MHD nicht mehr verzehrt werden, da sie ein hohes Risiko für Lebensmittelvergiftungen darstellen."
        ["Aus Gesundheitsgründen sollte dieses Produkt entsorgt werden";
         "Lebensmittelsicherheit hat Vorrang vor Lebensmittelverschwendung"]%string
    else result
  else result.

End app.

(** A request for a picture of the pack that reads
    [der Apfel und die Weizenmehl]. *)
Definition weizen_request : app.FileStorage :=
  {| app.filename := u "pack.jpg"; app.stream := weizen |}.

(** The list before the slice and the list returned, from the product
    [tbp] the text gave (if any), the extracted text [ex], the function
    [mk] that makes the entry of a product, and the entries [vis] of the
    visual loop.  No visual entry is marked as identified by text.  With a
    product, its entry [mk p ex] is the head of both lists, has [class_id]
    -1 and [identified_by_text] true, and what the slice drops are the
    visual entries after the fourth; without one, both lists are visual
    only. *)
Definition text_first_then_visual (mk : product -> str -> prediction)
    (tbp : option product) (ex : str) (vis full results : list prediction)
  : Prop :=
  Forall (fun v => identified_by_text v = None) vis
  /\ match tbp with
     | Some p =>
       full = mk p ex :: vis
       /\ results = firstn 5 (mk p ex :: vis)
       /\ nth_error results 0 = Some (mk p ex)
       /\ class_id (mk p ex) = (-1)%Z
       /\ identified_by_text (mk p ex) = Some true
       /\ full = results ++ skipn 4 vis
     | None =>
       full = vis
       /\ results = firstn 5 vis
       /\ full = results ++ skipn 5 vis
     end.

(** How [predict] of [image_recognition.py] put [results] together: the
    text and the product are those of the text channel, the entry of the
    product is [image_recognition.text_result]. *)
Definition assembled (self : ImageRecognizer) (file : image_file)
    (results : list prediction) : Prop :=
  exists img probs top ex tbp vis full,
    preprocess_image file = Ok img
    /\ top5_prob file = Ok probs
    /\ index probs 0 = Ok top
    /\ image_recognition.text_channel top img = Ok (ex, tbp)
    /\ Forall2 (visual_of ex tbp) (combine (top5_indices file) probs) vis
    /\ image_recognition.results_before_slice self file = Ok full
    /\ text_first_then_visual image_recognition.text_result tbp ex vis full
         results.

(** How [predict] of [image_recognition_new.py] put [results] together:
    the product is the one [identify_product_from_text] finds in the
    extracted text, its entry is [image_recognition_new.text_result]. *)
Definition assembled_new (self : ImageRecognizer) (file : image_file)
    (results : list prediction) : Prop :=
  exists img probs ex vis full,
    let tbp := image_recognition_new.identify_product_from_text ex in
    preprocess_image file = Ok img
    /\ image_recognition_new.extract_text img = Ok ex
    /\ top5_prob file = Ok probs
    /\ Forall2 (visual_of ex tbp) (combine (top5_indices file) probs) vis
    /\ image_recognition_new.results_before_slice self file = Ok full
    /\ text_first_then_visual image_recognition_new.text_result tbp ex vis
         full results.

(** The pack that reads [Mehl] under a confident classifier, as
    [image_recognition_new.py] sees it. *)
Definition mehl_confident : image_file := upload "Mehl" confident.

Definition mehl_new_entry : prediction :=
  image_recognition_new.text_result
    {| name := u "Mehl"; description := u "Mehl"; confidence_boost := 0.6 |}
    (u "Mehl").

Definition mehl_new_results : list prediction :=
  results_of (image_recognition_new.predict sample_recognizer mehl_confident).

(** * Properties *)

(** ** Exceptions and rationals *)

Lemma bind_Ok (A B : Type) (m : result A) (k : A -> result B) (b : B) :
  bind m k = Ok b -> exists a, m = Ok a /\ k a = Ok b.
Proof.
  destruct m as [a|]; simpl; intros H.
  - exists a. split; [reflexivity | exact H].
  - discriminate H.
Qed.

Tactic Notation "inv_bind" hyp(H) "as" ident(a) ident(Ha) :=
  apply bind_Ok in H; destruct H as [a [Ha H]].

Lemma Qgtb_true (a b : Q) : Qgtb a b = true <-> (b < a)%Q.
Proof.
  unfold Qgtb. rewrite negb_true_iff. split; intros H.
  - apply Qnot_le_lt. intros Hle. apply Qle_bool_iff in Hle. congruence.
  - destruct (Qle_bool a b) eqn:E; [|reflexivity].
    apply Qle_bool_iff in E. exfalso. exact (Qlt_not_le _ _ H E).
Qed.

Lemma Qgtb_false (a b : Q) : Qgtb a b = false <-> (a <= b)%Q.
Proof.
  unfold Qgtb. rewrite negb_false_iff. apply Qle_bool_iff.
Qed.

Lemma Qltb_false (a b : Q) : Qltb a b = false <-> (b <= a)%Q.
Proof.
  unfold Qltb. rewrite negb_false_iff. apply Qle_bool_iff.
Qed.

Lemma index_0 (A : Type) (l : list A) (x : A) :
  index l 0 = Ok x -> exists r, l = x :: r.
Proof.
  destruct l as [|y r]; unfold index; simpl; intros H.
  - discriminate H.
  - exists r. congruence.
Qed.

(** ** The loop over the visual results *)

Lemma visual_results_spec self ex tbp pairs :
  forall i acc out,
    visual_results self ex tbp i pairs acc = Ok out ->
    exists vis, out = acc ++ vis /\ Forall2 (visual_of ex tbp) pairs vis.
Proof.
  induction pairs as [|[idx prob] rest IH]; simpl; intros i acc out H.
  - exists []. rewrite app_nil_r. split; [congruence | constructor].
  - inv_bind H as cn Hcn. apply IH in H. destruct H as [vis [Hout Hvis]].
    eexists (_ :: vis). split.
    + rewrite Hout, <- app_assoc. reflexivity.
    + constructor; [|exact Hvis]. unfold visual_of; simpl.
      repeat split.
      destruct (i =? 0)%nat; simpl; [|now left].
      destruct (truthy ex) eqn:Et; simpl; [|now left].
      destruct tbp; simpl; [now left | now right].
Qed.

Lemma visual_of_not_text ex tbp pairs vis :
  Forall2 (visual_of ex tbp) pairs vis ->
  Forall (fun v => text_based v = false) vis.
Proof.
  induction 1 as [|pr v ps vs Hv _ IH]; constructor; [|exact IH].
  destruct Hv as (_ & _ & Hn & _). unfold text_based. now rewrite Hn.
Qed.

Lemma visual_of_confidence ex tbp pairs vis :
  Forall2 (visual_of ex tbp) pairs vis ->
  Forall (fun v => In (confidence v) (List.map snd pairs)) vis.
Proof.
  induction 1 as [|pr v ps vs Hv _ IH]; constructor.
  - destruct Hv as (_ & Hc & _). left. now rewrite Hc.
  - eapply Forall_impl; [|exact IH]. intros a Ha. now right.
Qed.

Lemma Forall_firstn (A : Type) (P : A -> Prop) (n : nat) (l : list A) :
  Forall P l -> Forall P (firstn n l).
Proof.
  intros H. rewrite <- (firstn_skipn n l) in H.
  apply Forall_app in H. exact (proj1 H).
Qed.

Lemma Forall_skipn (A : Type) (P : A -> Prop) (n : nat) (l : list A) :
  Forall P l -> Forall P (skipn n l).
Proof.
  intros H. rewrite <- (firstn_skipn n l) in H.
  apply Forall_app in H. exact (proj2 H).
Qed.

(** ** Shape of the list [predict] returns *)

Lemma predict_inv self file results :
  image_recognition.predict self file = Ok results ->
  exists img probs top extracted tbp vis,
    preprocess_image file = Ok img
    /\ top5_prob file = Ok probs
    /\ index probs 0 = Ok top
    /\ image_recognition.text_channel top img = Ok (extracted, tbp)
    /\ Forall2 (visual_of extracted tbp) (combine (top5_indices file) probs) vis
    /\ image_recognition.results_before_slice self file
       = Ok (text_entries image_recognition.text_result tbp extracted ++ vis)
    /\ results
       = firstn 5 (text_entries image_recognition.text_result tbp extracted
                   ++ vis).
Proof.
  unfold image_recognition.predict. intros H. inv_bind H as full Ha.
  injection H as <-. pose proof Ha as Hfull.
  unfold image_recognition.results_before_slice in Ha.
  inv_bind Ha as img Himg. inv_bind Ha as probs Hprobs.
  inv_bind Ha as top Htop. inv_bind Ha as channel Hchannel.
  destruct channel as [extracted tbp].
  apply visual_results_spec in Ha. destruct Ha as [vis [Hout Hvis]].
  exists img, probs, top, extracted, tbp, vis.
  assert (E : full = text_entries image_recognition.text_result tbp extracted
                  ++ vis).
  { rewrite Hout. destruct tbp; reflexivity. }
  rewrite <- E. repeat split; assumption.
Qed.

Lemma predict_new_inv self file results :
  image_recognition_new.predict self file = Ok results ->
  exists img probs extracted vis,
    let tbp := image_recognition_new.identify_product_from_text extracted in
    preprocess_image file = Ok img
    /\ image_recognition_new.extract_text img = Ok extracted
    /\ top5_prob file = Ok probs
    /\ Forall2 (visual_of extracted tbp) (combine (top5_indices file) probs) vis
    /\ image_recognition_new.results_before_slice self file
       = Ok (text_entries image_recognition_new.text_result tbp extracted
             ++ vis)
    /\ results
       = firstn 5 (text_entries image_recognition_new.text_result tbp extracted
                   ++ vis).
Proof.
  unfold image_recognition_new.predict. intros H. inv_bind H as full Ha.
  injection H as <-. pose proof Ha as Hfull.
  unfold image_recognition_new.results_before_slice in Ha.
  inv_bind Ha as img Himg. inv_bind Ha as ex Hex. inv_bind Ha as probs Hprobs.
  apply visual_results_spec in Ha. destruct Ha as [vis [Hout Hvis]].
  exists img, probs, ex, vis. cbv zeta.
  assert (E : full = text_entries image_recognition_new.text_result
                    (image_recognition_new.identify_product_from_text ex) ex
                  ++ vis).
  { rewrite Hout.
    destruct (image_recognition_new.identify_product_from_text ex);
      reflexivity. }
  rewrite <- E. repeat split; assumption.
Qed.

(** ** C1: high visual confidence *)

(** C1 (as it holds): in [image_recognition.py], when [predict] succeeds
    and the top visual confidence is above 0.75, the returned list has no
    text-based entry and no entry carries [extracted_text]; the list is
    the same for every readable file with that classification, whatever
    the OCR passes would return on it.  The variant
    [image_recognition_new.py] has no such check. *)
Theorem C1_high_confidence_skips_text self file probs top results :
  top5_prob file = Ok probs ->
  index probs 0 = Ok top ->
  (0.75 < top)%Q ->
  image_recognition.predict self file = Ok results ->
  Forall (fun e => text_based e = false /\ extracted_text e = None) results
  /\ forall file' img',
       preprocess_image file' = Ok img' ->
       top5_prob file' = top5_prob file ->
       top5_indices file' = top5_indices file ->
       image_recognition.predict self file' = Ok results.
Proof.
  intros Hp Ht Hgt H. split.
  2:{ intros file' img' Himg' Hp' Hi'.
      apply Qgtb_true in Hgt.
      unfold image_recognition.predict,
        image_recognition.results_before_slice in *.
      rewrite Himg', Hp', Hi'. rewrite Hp in *.
      destruct (preprocess_image file) as [img|]; [|discriminate H].
      cbn [bind] in *. rewrite Ht in *. cbn [bind] in *.
      unfold image_recognition.text_channel in *. rewrite Hgt in *.
      exact H. }
  apply predict_inv in H.
  destruct H as (img & probs' & top' & ex & tbp & vis
                 & _ & Hp' & Ht' & Hch & Hvis & _ & ->).
  rewrite Hp in Hp'. injection Hp' as <-.
  rewrite Ht in Ht'. injection Ht' as <-.
  unfold image_recognition.text_channel in Hch.
  apply Qgtb_true in Hgt. rewrite Hgt in Hch. injection Hch as <- <-.
  apply Forall_firstn. simpl.
  pose proof (visual_of_not_text Hvis) as Hnt.
  rewrite Forall_forall in *. intros v Hv. split; [now apply Hnt|].
  clear Hnt. induction Hvis as [|pr w ps ws Hw _ IH]; [destruct Hv|].
  destruct Hv as [<-|Hv]; [|now apply IH].
  destruct Hw as (_ & _ & _ & [Hn|(_ & Hf & _)]); [exact Hn | discriminate Hf].
Qed.

Lemma C1_high_confidence_witness :
  exists results,
    image_recognition.predict sample_recognizer (upload "Weizenmehl" confident)
    = Ok results
    /\ Forall (fun e => text_based e = false /\ extracted_text e = None)
              results
    /\ image_recognition.predict sample_recognizer (upload "Zucker" confident)
       = Ok results.
Proof.
  eexists. split; [vm_compute; reflexivity|].
  destruct (@C1_high_confidence_skips_text sample_recognizer
              (upload "Weizenmehl" confident) confident 0.9%Q _
              eq_refl eq_refl eq_refl eq_refl) as [H1 H2].
  split; [exact H1|].
  exact (H2 (upload "Zucker" confident) _ eq_refl eq_refl eq_refl).
Defined.

(** C1, counterexample: [image_recognition_new.py] reads the text whatever
    the visual confidence; with confidence 0.9 and the text [Mehl] the
    first entry is text-based and carries the extracted text. *)
Lemma C1_new_reads_text_regardless :
  ~ (forall self file probs top results,
       top5_prob file = Ok probs ->
       index probs 0 = Ok top ->
       (0.75 < top)%Q ->
       image_recognition_new.predict self file = Ok results ->
       Forall (fun e => text_based e = false /\ extracted_text e = None)
              results).
Proof.
  intros H.
  specialize (H sample_recognizer (upload "Mehl" confident) confident 0.9%Q _
                eq_refl eq_refl eq_refl eq_refl).
  vm_compute in H. inversion H as [|e l [Hd _] _]. discriminate Hd.
Qed.

Lemma In_firstn (A : Type) (n : nat) (l : list A) (x : A) :
  In x (firstn n l) -> In x l.
Proof.
  intros H. rewrite <- (firstn_skipn n l). apply in_or_app. now left.
Qed.

Lemma text_based_in_results mk tbp ex vis e :
  Forall (fun v => text_based v = false) vis ->
  In e (firstn 5 (text_entries mk tbp ex ++ vis)) ->
  text_based e = true ->
  exists p, tbp = Some p /\ e = mk p ex.
Proof.
  intros Hvis Hin Ht. apply In_firstn, in_app_or in Hin.
  destruct Hin as [Hin|Hin].
  - destruct tbp as [p|]; simpl in Hin; [|contradiction].
    destruct Hin as [<-|[]]. now exists p.
  - rewrite Forall_forall in Hvis. apply Hvis in Hin. congruence.
Qed.

(** What it takes for a product to come out of the two checks. *)
Lemma text_channel_Some top img ex p :
  image_recognition.text_channel top img = Ok (ex, Some p) ->
  (top <= 0.75)%Q
  /\ image_recognition.extract_text img = Ok ex
  /\ image_recognition.is_meaningful_text ex = true
  /\ image_recognition.identify_product_from_text ex = Some p
  /\ ((top <= 0.4)%Q \/ (1.2 <= confidence_boost p)%Q).
Proof.
  unfold image_recognition.text_channel. intros H.
  destruct (Qgtb top 0.75) eqn:E75; [discriminate H|].
  apply Qgtb_false in E75.
  inv_bind H as ex' Hex. injection H as <- H.
  destruct (image_recognition.is_meaningful_text ex') eqn:Em;
    [|discriminate H].
  destruct (Qgtb top 0.4) eqn:E4.
  - destruct (image_recognition.identify_product_from_text ex') as [q|];
      [|discriminate H].
    destruct (Qltb (confidence_boost q) 1.2) eqn:El; [discriminate H|].
    injection H as <-. apply Qltb_false in El. auto 6.
  - apply Qgtb_false in E4. auto 6.
Qed.

(** ** C2: confidence of the text-based entry *)

(** C2 (as it holds): in [image_recognition.py] the text-based entry of
    the returned list has confidence 0.95 times the [confidence_boost] of
    the product that came out of the checks; in [image_recognition_new.py]
    its confidence is the constant 0.95. *)
Theorem C2_text_entry_confidence self file results e :
  In e results ->
  text_based e = true ->
  (image_recognition.predict self file = Ok results ->
   exists img probs top extracted p,
     preprocess_image file = Ok img
     /\ top5_prob file = Ok probs
     /\ index probs 0 = Ok top
     /\ image_recognition.text_channel top img = Ok (extracted, Some p)
     /\ confidence e = (0.95 * confidence_boost p)%Q)
  /\ (image_recognition_new.predict self file = Ok results ->
      confidence e = 0.95%Q).
Proof.
  intros Hin Ht. split; intros H.
  - apply predict_inv in H.
    destruct H as (img & probs & top & ex & tbp & vis
                   & Himg & Hp & Htop & Hch & Hvis & _ & ->).
    destruct (@text_based_in_results _ _ _ _ _ (visual_of_not_text Hvis) Hin Ht)
      as [p [-> ->]].
    exists img, probs, top, ex, p. repeat split; assumption.
  - apply predict_new_inv in H.
    destruct H as (img & probs & ex & vis & _ & _ & _ & Hvis & _ & ->).
    destruct (@text_based_in_results _ _ _ _ _ (visual_of_not_text Hvis) Hin Ht)
      as [p [_ ->]].
    reflexivity.
Qed.

Lemma C2_text_entry_confidence_witness :
  In apfel_entry apfel_results
  /\ text_based apfel_entry = true
  /\ image_recognition.predict sample_recognizer apfel = Ok apfel_results
  /\ exists img probs top extracted p,
       preprocess_image apfel = Ok img
       /\ top5_prob apfel = Ok probs
       /\ index probs 0 = Ok top
       /\ image_recognition.text_channel top img = Ok (extracted, Some p)
       /\ confidence apfel_entry = (0.95 * confidence_boost p)%Q.
Proof.
  assert (Hin : In apfel_entry apfel_results) by (left; reflexivity).
  assert (Ht : text_based apfel_entry = true) by reflexivity.
  assert (Hp : image_recognition.predict sample_recognizer apfel
               = Ok apfel_results) by reflexivity.
  repeat split; try assumption.
  exact (proj1 (@C2_text_entry_confidence sample_recognizer apfel
                  apfel_results apfel_entry Hin Ht) Hp).
Defined.

(** C2, counterexample: in [image_recognition_new.py] the text [Mehl]
    finds the registry entry of boost 0.6, and the text-based entry has
    confidence 0.95, not 0.95 * 0.6. *)
Lemma C2_new_confidence_ignores_boost :
  ~ (forall self file img extracted p results e,
       preprocess_image file = Ok img ->
       image_recognition_new.extract_text img = Ok extracted ->
       image_recognition_new.identify_product_from_text extracted = Some p ->
       image_recognition_new.predict self file = Ok results ->
       In e results ->
       text_based e = true ->
       (confidence e == 0.95 * confidence_boost p)%Q).
Proof.
  intros H.
  specialize (H sample_recognizer (upload "Mehl" confident) _ _ _ _ _
                eq_refl eq_refl eq_refl eq_refl (or_introl eq_refl) eq_refl).
  vm_compute in H. discriminate H.
Qed.

(** ** C6: position of the text-based entry and the slice *)

Lemma slice_shape mk tbp ex vis :
  (forall p, class_id (mk p ex) = (-1)%Z
             /\ identified_by_text (mk p ex) = Some true) ->
  Forall (fun v => text_based v = false) vis ->
  let full := text_entries mk tbp ex ++ vis in
  text_entry_first (firstn 5 full) /\ slice_keeps_text full (firstn 5 full).
Proof.
  intros Hmk Hvis full. subst full. destruct tbp as [p|]; simpl text_entries.
  - change ([mk p ex] ++ vis) with (mk p ex :: vis).
    rewrite firstn_cons. split.
    + intros [|i] e Hnth Ht.
      * injection Hnth as <-. destruct (Hmk p). auto.
      * change (nth_error (firstn 4 vis) i = Some e) in Hnth.
        apply nth_error_In, In_firstn in Hnth.
        rewrite Forall_forall in Hvis. apply Hvis in Hnth. congruence.
    + split; [now rewrite firstn_cons|]. split.
      * change (skipn 5 (mk p ex :: vis)) with (skipn 4 vis).
        now apply Forall_skipn.
      * intros e [<-|Hin] Ht; [now left|].
        rewrite Forall_forall in Hvis. apply Hvis in Hin. congruence.
  - rewrite app_nil_l. split.
    + intros i e Hnth Ht. apply nth_error_In, In_firstn in Hnth.
      rewrite Forall_forall in Hvis. apply Hvis in Hnth. congruence.
    + split; [reflexivity|]. split; [now apply Forall_skipn|].
      intros e Hin Ht.
      rewrite Forall_forall in Hvis. apply Hvis in Hin. congruence.
Qed.

Lemma text_first_then_visual_intro mk tbp ex vis :
  (forall p, class_id (mk p ex) = (-1)%Z
             /\ identified_by_text (mk p ex) = Some true) ->
  Forall (fun v => identified_by_text v = None) vis ->
  text_first_then_visual mk tbp ex vis (text_entries mk tbp ex ++ vis)
    (firstn 5 (text_entries mk tbp ex ++ vis)).
Proof.
  intros Hmk Hvis. split; [exact Hvis|].
  destruct tbp as [p|]; simpl text_entries.
  - change ([mk p ex] ++ vis) with (mk p ex :: vis).
    destruct (Hmk p) as [Hid Hmark].
    split; [reflexivity|]. split; [reflexivity|].
    split; [now rewrite firstn_cons|]. split; [exact Hid|].
    split; [exact Hmark|].
    rewrite firstn_cons.
    change (mk p ex :: vis = mk p ex :: (firstn 4 vis ++ skipn 4 vis)).
    f_equal. symmetry. apply firstn_skipn.
  - rewrite app_nil_l. split; [reflexivity|]. split; [reflexivity|].
    symmetry. apply firstn_skipn.
Qed.

Lemma visual_of_unmarked ex tbp pairs vis :
  Forall2 (visual_of ex tbp) pairs vis ->
  Forall (fun v => identified_by_text v = None) vis.
Proof.
  induction 1 as [|pr v ps vs Hv _ IH]; constructor; [|exact IH].
  now destruct Hv as (_ & _ & Hn & _).
Qed.

(** C6: in either file, the list [predict] returns is the first five
    entries of the list it built: when the text gave a product, the entry
    [text_result] makes for it, with [class_id] -1 and
    [identified_by_text] true, followed by the visual entries, none of
    which is marked; otherwise the visual entries alone.  So the entry of
    the product is at index 0 of the returned list, every entry marked as
    identified by text is at index 0 with [class_id] -1, and what the
    slice drops are visual entries only. *)
Theorem C6_text_entry_first_and_kept self file results :
  (image_recognition.predict self file = Ok results ->
   assembled self file results
   /\ text_entry_first results
   /\ exists full,
       image_recognition.results_before_slice self file = Ok full
       /\ slice_keeps_text full results)
  /\ (image_recognition_new.predict self file = Ok results ->
      assembled_new self file results
      /\ text_entry_first results
      /\ exists full,
          image_recognition_new.results_before_slice self file = Ok full
          /\ slice_keeps_text full results).
Proof.
  split; intros H.
  - apply predict_inv in H.
    destruct H as (img & probs & top & ex & tbp & vis
                   & Himg & Hp & Ht & Hch & Hvis & Hfull & ->).
    destruct (@slice_shape image_recognition.text_result tbp ex vis)
      as [H1 H2]; [intros p; split; reflexivity
                  | exact (visual_of_not_text Hvis) |].
    split; [|split; [exact H1|]].
    + exists img, probs, top, ex, tbp, vis,
        (text_entries image_recognition.text_result tbp ex ++ vis).
      do 6 (split; [assumption|]).
      apply text_first_then_visual_intro;
        [intros p; split; reflexivity | exact (visual_of_unmarked Hvis)].
    + eexists. split; [exact Hfull | exact H2].
  - apply predict_new_inv in H.
    destruct H as (img & probs & ex & vis
                   & Himg & Hex & Hp & Hvis & Hfull & ->).
    destruct (@slice_shape image_recognition_new.text_result
                (image_recognition_new.identify_product_from_text ex) ex vis)
      as [H1 H2]; [intros p; split; reflexivity
                  | exact (visual_of_not_text Hvis) |].
    split; [|split; [exact H1|]].
    + exists img, probs, ex, vis,
        (text_entries image_recognition_new.text_result
           (image_recognition_new.identify_product_from_text ex) ex ++ vis).
      cbv zeta. do 5 (split; [assumption|]).
      apply text_first_then_visual_intro;
        [intros p; split; reflexivity | exact (visual_of_unmarked Hvis)].
    + eexists. split; [exact Hfull | exact H2].
Qed.

Lemma C6_text_entry_first_and_kept_witness :
  (image_recognition.predict sample_recognizer apfel = Ok apfel_results
   /\ nth_error apfel_results 0 = Some apfel_entry
   /\ class_id apfel_entry = (-1)%Z
   /\ identified_by_text apfel_entry = Some true
   /\ len apfel_results = 5%nat
   /\ assembled sample_recognizer apfel apfel_results
   /\ text_entry_first apfel_results
   /\ exists full,
       image_recognition.results_before_slice sample_recognizer apfel
       = Ok full
       /\ slice_keeps_text full apfel_results)
  /\ (image_recognition_new.predict sample_recognizer mehl_confident
      = Ok mehl_new_results
      /\ nth_error mehl_new_results 0 = Some mehl_new_entry
      /\ class_id mehl_new_entry = (-1)%Z
      /\ identified_by_text mehl_new_entry = Some true
      /\ len mehl_new_results = 5%nat
      /\ assembled_new sample_recognizer mehl_confident mehl_new_results
      /\ text_entry_first mehl_new_results
      /\ exists full,
          image_recognition_new.results_before_slice sample_recognizer
            mehl_confident = Ok full
          /\ slice_keeps_text full mehl_new_results).
Proof.
  assert (Hp : image_recognition.predict sample_recognizer apfel
               = Ok apfel_results) by reflexivity.
  assert (Hn : image_recognition_new.predict sample_recognizer mehl_confident
               = Ok mehl_new_results) by reflexivity.
  split.
  - do 5 (split; [reflexivity|]).
    exact (proj1 (@C6_text_entry_first_and_kept sample_recognizer apfel
                    apfel_results) Hp).
  - do 5 (split; [reflexivity|]).
    exact (proj2 (@C6_text_entry_first_and_kept sample_recognizer
                    mehl_confident mehl_new_results) Hn).
Defined.

(** ** C10: the text-based entry needs meaningful text *)

(** C10: in [image_recognition.py], a text-based entry in the returned
    list means that text was extracted and [is_meaningful_text] accepted
    it; when the filter rejects the extracted text there is no text-based
    entry, whatever keyword the text contains. *)
Theorem C10_text_entry_only_if_meaningful self file results :
  image_recognition.predict self file = Ok results ->
  (forall e,
     In e results ->
     text_based e = true ->
     exists img extracted,
       preprocess_image file = Ok img
       /\ image_recognition.extract_text img = Ok extracted
       /\ image_recognition.is_meaningful_text extracted = true
       /\ extracted_text e = Some extracted)
  /\ (forall img extracted,
        preprocess_image file = Ok img ->
        image_recognition.extract_text img = Ok extracted ->
        image_recognition.is_meaningful_text extracted = false ->
        Forall (fun e => text_based e = false) results).
Proof.
  intros H. apply predict_inv in H.
  destruct H as (img & probs & top & ex & tbp & vis
                 & Himg & _ & _ & Hch & Hvis & _ & ->).
  assert (A : forall e,
             In e (firstn 5 (text_entries image_recognition.text_result tbp ex
                             ++ vis)) ->
             text_based e = true ->
             image_recognition.extract_text img = Ok ex
             /\ image_recognition.is_meaningful_text ex = true
             /\ extracted_text e = Some ex).
  { intros e Hin Ht.
    destruct (@text_based_in_results _ _ _ _ _ (visual_of_not_text Hvis)
                Hin Ht) as [p [-> ->]].
    apply text_channel_Some in Hch.
    destruct Hch as (_ & Hex & Hm & _). auto. }
  split.
  - intros e Hin Ht. destruct (A e Hin Ht) as (Hex & Hm & He).
    exists img, ex. auto.
  - intros img' ex' Himg' Hex' Hm'. apply Forall_forall. intros e Hin.
    destruct (text_based e) eqn:Ht; [|reflexivity].
    destruct (A e Hin Ht) as (Hex & Hm & _).
    rewrite Himg in Himg'. injection Himg' as <-.
    rewrite Hex in Hex'. injection Hex' as <-. congruence.
Qed.

Lemma C10_text_entry_only_if_meaningful_witness :
  image_recognition.predict sample_recognizer mehl = Ok mehl_results
  /\ image_recognition.identify_product_from_text (u "Mehl") <> None
  /\ image_recognition.is_meaningful_text (u "Mehl") = false
  /\ Forall (fun e => text_based e = false) mehl_results.
Proof.
  assert (Hp : image_recognition.predict sample_recognizer mehl
               = Ok mehl_results) by reflexivity.
  split; [exact Hp|]. split; [discriminate|]. split; [reflexivity|].
  exact (proj2 (@C10_text_entry_only_if_meaningful sample_recognizer mehl
                  mehl_results Hp)
               (picture "Mehl") (u "Mehl") eq_refl eq_refl eq_refl).
Defined.

(** ** The scan of the registry *)

Lemma scan_step_keeps (P : product -> Prop) text_lower st entry :
  (forall p, fst st = Some p -> P p) ->
  P (snd entry) ->
  forall p, fst (scan_step text_lower st entry) = Some p -> P p.
Proof.
  destruct st as [best score], entry as [key prod]. unfold scan_step.
  intros Hst He p.
  destruct (contains (lower key) text_lower); [|apply Hst].
  destruct (Qgtb _ score); [|apply Hst].
  simpl. intros [= <-]. exact He.
Qed.

Lemma scan_keeps (P : product -> Prop) text_lower reg :
  Forall (fun entry => P (snd entry)) reg ->
  forall st,
    (forall p, fst st = Some p -> P p) ->
    forall p, fst (fold_left (scan_step text_lower) reg st) = Some p -> P p.
Proof.
  induction 1 as [|entry reg He _ IH]; simpl; intros st Hst; [exact Hst|].
  apply IH. now apply scan_step_keeps.
Qed.

Lemma scan_no_match text_lower reg :
  Forall (fun entry => contains (lower (fst entry)) text_lower = false) reg ->
  forall st, fold_left (scan_step text_lower) reg st = st.
Proof.
  induction 1 as [|[key prod] reg He _ IH]; simpl; intros st; [reflexivity|].
  rewrite IH. destruct st as [best score]. unfold scan_step.
  simpl in He. now rewrite He.
Qed.

Lemma registry_boosts :
  Forall (fun entry => (1.2 <= confidence_boost (snd entry))%Q)
         image_recognition.PRODUCT_TEXT_MAPPING.
Proof.
  apply Forall_forall. intros entry Hin. apply Qle_bool_iff.
  revert entry Hin. apply forallb_forall. reflexivity.
Qed.

Lemma registry_new_boosts :
  Forall (fun entry => (confidence_boost (snd entry) <= 0.8)%Q)
         image_recognition_new.PRODUCT_TEXT_MAPPING.
Proof.
  apply Forall_forall. intros entry Hin. apply Qle_bool_iff.
  revert entry Hin. apply forallb_forall. reflexivity.
Qed.

(** A product found in [image_recognition.py] is a registry entry, of boost
    at least 1.2, or the one synthesized from the text, of boost 0.85. *)
Lemma identify_boost text p :
  image_recognition.identify_product_from_text text = Some p ->
  (1.2 <= confidence_boost p)%Q \/ confidence_boost p = 0.85%Q.
Proof.
  unfold image_recognition.identify_product_from_text.
  destruct (negb (truthy text) || str_eqb (strip text) (u ""));
    [discriminate|].
  destruct (fst (fold_left (scan_step (lower text))
                   image_recognition.PRODUCT_TEXT_MAPPING (None, 0%Q)))
    as [q|] eqn:E.
  - intros [= <-]. left.
    apply (@scan_keeps (fun p => (1.2 <= confidence_boost p)%Q) (lower text)
             _ registry_boosts (None, 0%Q)); [discriminate | exact E].
  - destruct (image_recognition.is_meaningful_text text); [|discriminate].
    intros [= <-]. now right.
Qed.

Lemma meaningful_not_blank text :
  image_recognition.is_meaningful_text text = true ->
  negb (truthy text) || str_eqb (strip text) (u "") = false.
Proof.
  unfold image_recognition.is_meaningful_text.
  destruct (negb (truthy text) || (len (strip text) <? 6)%nat) eqn:E;
    [discriminate|].
  intros _. apply orb_false_iff in E. destruct E as [E1 E2].
  rewrite E1. simpl. destruct (strip text); [discriminate E2 | reflexivity].
Qed.

Lemma meaningful_new_not_blank text :
  image_recognition_new.is_meaningful_text text = true ->
  negb (truthy text) || str_eqb (strip text) (u "") = false.
Proof.
  unfold image_recognition_new.is_meaningful_text.
  destruct (negb (truthy text) || (len (strip text) <? 3)%nat) eqn:E;
    [discriminate|].
  intros _. apply orb_false_iff in E. destruct E as [E1 E2].
  rewrite E1. simpl. destruct (strip text); [discriminate E2 | reflexivity].
Qed.

(** ** C3: the boost of a synthesized product *)

(** C3 (as it holds): for a meaningful text without registry keyword,
    [image_recognition.py] synthesizes a product of boost 0.85, strictly
    below the boost of every entry of its registry;
    [image_recognition_new.py] synthesizes one of boost 0.9, strictly above
    the boost of every entry of its registry. *)
Theorem C3_synthesized_boost text :
  (no_keyword image_recognition.PRODUCT_TEXT_MAPPING text ->
   image_recognition.is_meaningful_text text = true ->
   exists p,
     image_recognition.identify_product_from_text text = Some p
     /\ confidence_boost p = 0.85%Q
     /\ Forall (fun entry =>
                  (confidence_boost p < confidence_boost (snd entry))%Q)
               image_recognition.PRODUCT_TEXT_MAPPING)
  /\ (no_keyword image_recognition_new.PRODUCT_TEXT_MAPPING text ->
      image_recognition_new.is_meaningful_text text = true ->
      exists p,
        image_recognition_new.identify_product_from_text text = Some p
        /\ confidence_boost p = 0.9%Q
        /\ Forall (fun entry =>
                     (confidence_boost (snd entry) < confidence_boost p)%Q)
                  image_recognition_new.PRODUCT_TEXT_MAPPING).
Proof.
  split; intros Hno Hm.
  - unfold image_recognition.identify_product_from_text.
    rewrite (@meaningful_not_blank text Hm), (@scan_no_match _ _ Hno), Hm. simpl fst.
    eexists. split; [reflexivity|]. split; [reflexivity|]. simpl.
    eapply Forall_impl; [|exact registry_boosts].
    intros entry He. simpl in He. lra.
  - unfold image_recognition_new.identify_product_from_text.
    rewrite (@meaningful_new_not_blank text Hm), (@scan_no_match _ _ Hno), Hm.
    simpl fst.
    eexists. split; [reflexivity|]. split; [reflexivity|]. simpl.
    eapply Forall_impl; [|exact registry_new_boosts].
    intros entry He. simpl in He. lra.
Qed.

Lemma no_keyword_decide reg text :
  forallb (fun entry => negb (contains (lower (fst entry)) (lower text))) reg
  = true ->
  no_keyword reg text.
Proof.
  intros H. apply Forall_forall. intros entry Hin.
  rewrite forallb_forall in H. apply H in Hin.
  now apply negb_true_iff in Hin.
Qed.

Lemma C3_synthesized_boost_witness :
  let text := u "der Apfel und die Birne" in
  no_keyword image_recognition.PRODUCT_TEXT_MAPPING text
  /\ image_recognition.is_meaningful_text text = true
  /\ exists p,
      image_recognition.identify_product_from_text text = Some p
      /\ confidence_boost p = 0.85%Q
      /\ Forall (fun entry =>
                   (confidence_boost p < confidence_boost (snd entry))%Q)
                image_recognition.PRODUCT_TEXT_MAPPING.
Proof.
  intros text.
  assert (Hno : no_keyword image_recognition.PRODUCT_TEXT_MAPPING text)
    by (apply no_keyword_decide; reflexivity).
  assert (Hm : image_recognition.is_meaningful_text text = true)
    by reflexivity.
  split; [exact Hno|]. split; [exact Hm|].
  exact (proj1 (C3_synthesized_boost text) Hno Hm).
Defined.

(** C3, counterexample: in [image_recognition_new.py] the text
    [hello world] has no registry keyword and is meaningful; the product
    synthesized from it has boost 0.9, which is not below the 0.8 of the
    first registry entry. *)
Lemma C3_new_synthesized_boost_not_below :
  ~ (forall text p,
       no_keyword image_recognition_new.PRODUCT_TEXT_MAPPING text ->
       image_recognition_new.is_meaningful_text text = true ->
       image_recognition_new.identify_product_from_text text = Some p ->
       Forall (fun entry =>
                 (confidence_boost p < confidence_boost (snd entry))%Q)
              image_recognition_new.PRODUCT_TEXT_MAPPING).
Proof.
  intros H.
  specialize (H (u "hello world") _
                (@no_keyword_decide image_recognition_new.PRODUCT_TEXT_MAPPING
                   (u "hello world") eq_refl)
                eq_refl eq_refl).
  inversion H as [|entry reg Hlt _]. vm_compute in Hlt. discriminate Hlt.
Qed.

(** ** C9: the text-based entry outranks the visual ones *)

Lemma descending_top probs top :
  index probs 0 = Ok top ->
  descending probs ->
  Forall (fun c => (c <= top)%Q) probs.
Proof.
  intros Hi Hd. apply index_0 in Hi. destruct Hi as [r ->].
  apply StronglySorted_inv in Hd. destruct Hd as [_ Hd].
  constructor; [apply Qle_refl | exact Hd].
Qed.

Lemma In_snd_combine (A B : Type) (a : list A) (b : list B) (y : B) :
  In y (List.map snd (combine a b)) -> In y b.
Proof.
  intros H. apply in_map_iff in H. destruct H as [[x y'] [<- H]].
  eapply in_combine_r, H.
Qed.

(** C9: in [image_recognition.py], with softmax outputs (at most 1) in
    descending order, the text-based entry of the returned list has a
    confidence strictly above that of every visual entry of the list: it
    is at least 1.14 (a product of boost at least 1.2), or it is 0.8075
    (the synthesized product, of boost 0.85) and then the top visual
    confidence is at most 0.4. *)
Theorem C9_text_entry_outranks_visual self file probs top results e :
  top5_prob file = Ok probs ->
  index probs 0 = Ok top ->
  Forall (fun c => (0 <= c <= 1)%Q) probs ->
  descending probs ->
  image_recognition.predict self file = Ok results ->
  In e results ->
  text_based e = true ->
  ((1.14 <= confidence e)%Q
   \/ ((confidence e == 0.8075)%Q /\ (top <= 0.4)%Q))
  /\ forall v,
       In v results ->
       text_based v = false ->
       (confidence v < confidence e)%Q.
Proof.
  intros Hp Ht Hunit Hdesc H Hin Hte. apply predict_inv in H.
  destruct H as (img & probs' & top' & ex & tbp & vis
                 & _ & Hp' & Ht' & Hch & Hvis & _ & ->).
  rewrite Hp in Hp'. injection Hp' as <-.
  rewrite Ht in Ht'. injection Ht' as <-.
  destruct (@text_based_in_results _ _ _ _ _ (visual_of_not_text Hvis)
              Hin Hte) as [p [-> ->]].
  apply text_channel_Some in Hch.
  destruct Hch as (_ & _ & _ & Hid & Hspec).
  apply identify_boost in Hid.
  pose proof (descending_top Ht Hdesc) as Htop.
  assert (Hvisual : forall v,
             In v (firstn 5 (text_entries image_recognition.text_result
                               (Some p) ex ++ vis)) ->
             text_based v = false ->
             (confidence v <= 1)%Q /\ (confidence v <= top)%Q).
  { intros v Hv Hnt. apply In_firstn in Hv. destruct Hv as [<-|Hv].
    - discriminate Hnt.
    - pose proof (visual_of_confidence Hvis) as Hc.
      rewrite Forall_forall in Hc, Hunit, Htop.
      apply Hc, In_snd_combine in Hv. split.
      + apply Hunit in Hv. tauto.
      + now apply Htop. }
  unfold image_recognition.text_result at 1 3. simpl confidence.
  assert (Hcases : (1.2 <= confidence_boost p)%Q
                   \/ (confidence_boost p = 0.85%Q /\ (top <= 0.4)%Q)).
  { destruct Hid as [Hid|Hid]; [now left|].
    destruct Hspec as [Hspec|Hspec]; [now right|].
    rewrite Hid in Hspec. exfalso. revert Hspec. apply Qlt_not_le.
    reflexivity. }
  destruct Hcases as [Hb|[Hb Hlow]].
  - split; [left; lra|].
    intros v Hv Hnt. destruct (Hvisual v Hv Hnt) as [H1 _]. lra.
  - rewrite Hb. split; [right; split; [reflexivity | exact Hlow]|].
    intros v Hv Hnt. destruct (Hvisual v Hv Hnt) as [_ H2].
    eapply Qle_lt_trans; [exact H2|].
    eapply Qle_lt_trans; [exact Hlow|]. reflexivity.
Qed.

Lemma unsure_descending : descending unsure.
Proof.
  unfold unsure. repeat constructor; discriminate.
Qed.

Lemma unsure_unit : Forall (fun c => (0 <= c <= 1)%Q) unsure.
Proof.
  unfold unsure. repeat constructor; discriminate.
Qed.

Lemma C9_text_entry_outranks_visual_witness :
  image_recognition.predict sample_recognizer apfel = Ok apfel_results
  /\ In apfel_entry apfel_results
  /\ ((1.14 <= confidence apfel_entry)%Q
      \/ ((confidence apfel_entry == 0.8075)%Q /\ (0.3 <= 0.4)%Q))
  /\ forall v,
       In v apfel_results ->
       text_based v = false ->
       (confidence v < confidence apfel_entry)%Q.
Proof.
  assert (Hp : image_recognition.predict sample_recognizer apfel
               = Ok apfel_results) by reflexivity.
  assert (Hin : In apfel_entry apfel_results) by (left; reflexivity).
  split; [exact Hp|]. split; [exact Hin|].
  exact (@C9_text_entry_outranks_visual sample_recognizer apfel unsure
           0.3%Q apfel_results apfel_entry eq_refl eq_refl
           unsure_unit unsure_descending Hp Hin eq_refl).
Defined.

(** ** C5: the noise ratio *)

Lemma noise_ratio_gt text :
  (0.3 < noise_ratio text)%Q ->
  (3 * len text < 10 * special_chars text)%nat.
Proof.
  unfold noise_ratio. generalize (special_chars text) as s.
  generalize (len text) as l. intros l s.
  unfold of_nat, Qdiv, Qinv, Qlt, Qmult, inject_Z.
  destruct l as [|l]; cbn [Qnum Qden Z.of_nat]; lia.
Qed.

Lemma noise_check s l :
  (3 * l < 10 * s)%nat ->
  Qgtb (of_nat s / (of_nat l + 0.001)) 0.3 = true.
Proof.
  intros H. apply Qgtb_true. apply Qlt_shift_div_l.
  - unfold of_nat, Qlt, Qplus, inject_Z. cbn [Qnum Qden]. lia.
  - unfold of_nat, Qlt, Qplus, Qmult, inject_Z. cbn [Qnum Qden]. lia.
Qed.

(** C5 (as it holds): the filter of [image_recognition.py] rejects every
    text in which more than 30% of the characters are neither alphanumeric
    nor white space.  The filter of [image_recognition_new.py] does not
    look at that ratio. *)
Theorem C5_strict_rejects_noise text :
  (0.3 < noise_ratio text)%Q ->
  image_recognition.is_meaningful_text text = false.
Proof.
  intros H. apply noise_ratio_gt, noise_check in H.
  unfold image_recognition.is_meaningful_text.
  destruct (negb (truthy text) || (len (strip text) <? 6)%nat);
    [reflexivity|].
  unfold special_chars in H. now rewrite H.
Qed.

Lemma C5_strict_rejects_noise_witness :
  (0.3 < noise_ratio (u "Mehl!!!! Zucker!!!!"))%Q
  /\ image_recognition.is_meaningful_text (u "Mehl!!!! Zucker!!!!") = false.
Proof.
  assert (H : (0.3 < noise_ratio (u "Mehl!!!! Zucker!!!!"))%Q)
    by reflexivity.
  split; [exact H|].
  exact (@C5_strict_rejects_noise (u "Mehl!!!! Zucker!!!!") H).
Defined.

(** C5, counterexample: two of the five characters of [abc!!] are neither
    alphanumeric nor white space, and [image_recognition_new.py] accepts
    it. *)
Lemma C5_new_accepts_noise :
  ~ (forall text,
       (0.3 < noise_ratio text)%Q ->
       image_recognition.is_meaningful_text text = false
       /\ image_recognition_new.is_meaningful_text text = false).
Proof.
  intros H. destruct (H (u "abc!!") eq_refl) as [_ Hnew].
  vm_compute in Hnew. discriminate Hnew.
Qed.

(** ** C4: the two sample texts *)

(** C4 (what the code does): both filters reject [ab]; the filter of
    [image_recognition_new.py] accepts [Weizenmehl Type 405]; the filter
    of [image_recognition.py] rejects it. *)
Theorem C4_is_meaningful_samples :
  image_recognition.is_meaningful_text (u "ab") = false
  /\ image_recognition_new.is_meaningful_text (u "ab") = false
  /\ image_recognition_new.is_meaningful_text (u "Weizenmehl Type 405") = true
  /\ image_recognition.is_meaningful_text (u "Weizenmehl Type 405") = false.
Proof.
  repeat split; vm_compute; reflexivity.
Qed.

(** Why [image_recognition.py] rejects it.  The dictionary holds
    [Weizenmehl] capitalized and is asked for the lower-cased word; the
    flour pattern wants digits right after [typ], so it takes [Typ 405] and
    not [Type 405], which the pattern of [get_best_text_for_title] takes. *)
Lemma C4_dictionary_path_misses :
  mem (u "Weizenmehl") image_recognition.common_german_words = true
  /\ mem (lower (u "Weizenmehl")) image_recognition.common_german_words
     = false.
Proof.
  split; vm_compute; reflexivity.
Qed.

Lemma C4_pattern_path_misses :
  re_search image_recognition.re_mehl_typ (lower (u "Weizenmehl Type 405"))
  = None
  /\ re_search image_recognition.re_mehl_typ (lower (u "Weizenmehl Typ 405"))
     = Some (u "weizenmehl typ 405")
  /\ re_search image_recognition.re_typ (u "Weizenmehl Type 405")
     = Some (u "Type 405")
  /\ image_recognition.is_meaningful_text (u "Weizenmehl Typ 405") = true.
Proof.
  repeat split; vm_compute; reflexivity.
Qed.

(** ** C7: failures of the OCR passes *)

Lemma lstrip_nil_all_space s :
  lstrip s = [] -> forallb isspace s = true.
Proof.
  induction s as [|c r IH]; simpl; [reflexivity|].
  destruct (isspace c); [exact IH | discriminate].
Qed.

Lemma all_space_lstrip s :
  forallb isspace s = true -> lstrip s = [].
Proof.
  induction s as [|c r IH]; simpl; [reflexivity|].
  destruct (isspace c); [exact IH | discriminate].
Qed.

Lemma forallb_rev (p : char -> bool) s :
  forallb p (rev s) = forallb p s.
Proof.
  induction s as [|c r IH]; simpl; [reflexivity|].
  rewrite forallb_app, IH. simpl. rewrite andb_true_r. apply andb_comm.
Qed.

Lemma lstrip_idem s : lstrip (lstrip s) = lstrip s.
Proof.
  induction s as [|c r IH]; simpl; [reflexivity|].
  destruct (isspace c) eqn:E; [exact IH|]. simpl. now rewrite E.
Qed.

Lemma strip_nil_all_space s :
  strip s = [] -> forallb isspace s = true.
Proof.
  unfold strip, rstrip. intros H.
  apply (f_equal (@rev char)) in H. rewrite rev_involutive in H.
  simpl in H. apply lstrip_nil_all_space in H. rewrite forallb_rev in H.
  apply all_space_lstrip in H. rewrite lstrip_idem in H.
  now apply lstrip_nil_all_space.
Qed.

Lemma all_space_strip s :
  forallb isspace s = true -> strip s = [].
Proof.
  intros H. unfold strip. now rewrite (all_space_lstrip _ H).
Qed.

Lemma fields_all_space sep s :
  forallb isspace s = true ->
  Forall (fun f => forallb isspace f = true) (fields sep s).
Proof.
  induction s as [|c r IH]; simpl; intros H.
  - repeat constructor.
  - apply andb_true_iff in H. destruct H as [Hc Hr]. specialize (IH Hr).
    destruct (sep c); [constructor; [reflexivity | exact IH]|].
    destruct (fields sep r) as [|w ws]; [repeat constructor; simpl; now rewrite Hc|].
    inversion IH as [|? ? Hw Hws]; subst.
    constructor; [simpl; now rewrite Hc | exact Hws].
Qed.

(** A text that is blank as a whole has only blank lines. *)
Lemma blank_clean_lines text :
  is_empty (strip text) = true -> clean_lines text = [].
Proof.
  intros H. destruct (strip text) eqn:E; [|discriminate H].
  apply strip_nil_all_space in E. unfold clean_lines, split_on.
  pose proof (fields_all_space (N.eqb LF) _ E) as HF.
  induction HF as [|f fs Hf _ IH]; [reflexivity|].
  simpl. now rewrite (all_space_strip _ Hf).
Qed.

(** C7 (as it holds): [extract_text] never raises, in either file.  In
    [image_recognition.py] a second or third pass that raises is the same
    as one that returned empty text: the other passes still run and
    contribute.  When the first pass raises (the only one of
    [image_recognition_new.py]) the result is the empty string, and so it
    is when no pass returns anything but blank text. *)
Theorem C7_extract_text_recovery img :
  (exists s, image_recognition.extract_text img = Ok s)
  /\ (exists s, image_recognition_new.extract_text img = Ok s)
  /\ image_recognition.extract_text (with_contrast Raise img)
     = image_recognition.extract_text (with_contrast (Ok (u "")) img)
  /\ image_recognition.extract_text (with_mhd Raise img)
     = image_recognition.extract_text (with_mhd (Ok (u "")) img)
  /\ image_recognition.extract_text (with_sparse Raise img) = Ok (u "")
  /\ image_recognition_new.extract_text (with_sparse Raise img) = Ok (u "")
  /\ (blank (ocr_sparse img) = true ->
      blank (ocr_contrast img) = true ->
      blank (ocr_mhd img) = true ->
      image_recognition.extract_text img = Ok (u ""))
  /\ (blank (ocr_sparse img) = true ->
      image_recognition_new.extract_text img = Ok (u "")).
Proof.
  destruct img as [[[]|] [t1|] [t2|] [t3|]];
    unfold image_recognition.extract_text, image_recognition_new.extract_text,
      with_contrast, with_mhd, with_sparse, blank;
    cbn [convert_L ocr_sparse ocr_contrast ocr_mhd bind try_except].
  all: repeat match goal with |- _ /\ _ => split end.
  all: try reflexivity.
  all: try (eexists; reflexivity).
  all: try discriminate.
  all: intros.
  all: try (fold (clean_lines t1); now rewrite blank_clean_lines).
  all: unfold truthy.
  all: repeat match goal with
              | H : is_empty (strip _) = true |- _ => rewrite H; clear H
              end.
  all: reflexivity.
Qed.

Lemma C7_extract_text_recovery_witness :
  blank (ocr_sparse (picture "  ")) = true
  /\ blank (ocr_contrast (picture "  ")) = true
  /\ blank (ocr_mhd (picture "  ")) = true
  /\ image_recognition.extract_text (picture "  ") = Ok (u "")
  /\ image_recognition_new.extract_text (picture "  ") = Ok (u "").
Proof.
  destruct (C7_extract_text_recovery (picture "  "))
    as (_ & _ & _ & _ & _ & _ & H1 & H2).
  split; [reflexivity|]. split; [reflexivity|]. split; [reflexivity|].
  split; [apply H1; reflexivity | apply H2; reflexivity].
Defined.

(** C7, counterexample: in [image_recognition.py] a first pass that raises
    is not a pass that returned empty text; the contrast pass is not run
    and its [Mehl] is lost. *)
Lemma C7_first_pass_failure_ends_extraction :
  ~ (forall img,
       image_recognition.extract_text (with_sparse Raise img)
       = image_recognition.extract_text (with_sparse (Ok (u "")) img)).
Proof.
  intros H. specialize (H flaky). vm_compute in H. discriminate H.
Qed.

(** ** C8: the extracted text is trimmed *)

Lemma lstrip_fixed_app a b :
  a <> [] -> lstrip a = a -> lstrip (a ++ b) = a ++ b.
Proof.
  destruct a as [|c r]; [congruence|]. simpl. intros _ H.
  destruct (isspace c) eqn:E; [|reflexivity].
  exfalso. assert (L : forall s, (len (lstrip s) <= len s)%nat).
  { induction s as [|x s IH]; simpl; [lia|].
    destruct (isspace x); simpl; unfold len in *; lia. }
  specialize (L r). rewrite H in L. simpl in L. unfold len in L. lia.
Qed.

Lemma lstrip_snoc a c :
  isspace c = false -> lstrip (a ++ [c]) = lstrip a ++ [c].
Proof.
  intros Hc. induction a as [|x a IH]; simpl; [now rewrite Hc|].
  destruct (isspace x); [exact IH | reflexivity].
Qed.

Lemma rstrip_cons c r :
  isspace c = false -> rstrip (c :: r) = c :: rstrip r.
Proof.
  intros Hc. unfold rstrip. simpl rev.
  rewrite (@lstrip_snoc (rev r) c Hc), rev_unit. reflexivity.
Qed.

Lemma trimmed_strip_fixed s : trimmed s -> strip s = s.
Proof.
  intros [H1 H2]. unfold strip, rstrip.
  rewrite H1, H2. apply rev_involutive.
Qed.

Lemma strip_trimmed s : trimmed (strip s).
Proof.
  unfold trimmed, strip. split.
  - destruct (lstrip s) as [|c r] eqn:E; [reflexivity|].
    assert (Hc : isspace c = false).
    { pose proof (lstrip_idem s) as Hi. rewrite E in Hi. simpl in Hi.
      destruct (isspace c) eqn:Ec; [|reflexivity].
      exfalso. pose proof (f_equal (@List.length char) Hi) as Hl.
      assert (L : forall t, (List.length (lstrip t) <= List.length t)%nat).
      { induction t as [|x t IH]; simpl; [lia|].
        destruct (isspace x); simpl; lia. }
      specialize (L r). simpl in Hl. lia. }
    rewrite (@rstrip_cons c r Hc). simpl. now rewrite Hc.
  - unfold rstrip. rewrite rev_involutive. apply lstrip_idem.
Qed.

Lemma join_nonempty sep x l :
  x <> [] -> join sep (x :: l) <> [].
Proof.
  intros Hx. destruct l as [|y l]; simpl; [exact Hx|].
  destruct x; [congruence | discriminate].
Qed.

Lemma join_trimmed sep l :
  Forall (fun x => x <> [] /\ trimmed x) l -> trimmed (join sep l).
Proof.
  induction 1 as [|x l [Hx [H1 H2]] Hl IH]; [split; reflexivity|].
  destruct l as [|y l]; [split; assumption|].
  change (join sep (x :: y :: l)) with (x ++ sep ++ join sep (y :: l)).
  split.
  - now apply lstrip_fixed_app.
  - rewrite !rev_app_distr, <- app_assoc.
    inversion Hl as [|? ? [Hy _] _]; subst.
    apply lstrip_fixed_app; [|apply IH].
    intros E. apply (f_equal (@rev char)) in E.
    rewrite rev_involutive in E. exact (@join_nonempty sep y l Hy E).
Qed.

Lemma In_lstrip c s : In c (lstrip s) -> In c s.
Proof.
  induction s as [|x s IH]; simpl; [tauto|].
  destruct (isspace x); [auto | tauto].
Qed.

Lemma In_strip c s : In c (strip s) -> In c s.
Proof.
  unfold strip, rstrip. intros H.
  apply In_lstrip. apply in_rev in H. apply In_lstrip in H.
  now apply in_rev in H.
Qed.

Lemma fields_without_separator sep s :
  Forall (fun f => forall c, In c f -> sep c = false) (fields sep s).
Proof.
  induction s as [|x s IH]; simpl.
  - repeat constructor. intros c [].
  - destruct (sep x) eqn:E.
    + constructor; [intros c [] | exact IH].
    + destruct (fields sep s) as [|w ws].
      * repeat constructor. intros c [<-|[]]. exact E.
      * inversion IH as [|? ? Hw Hws]; subst.
        constructor; [|exact Hws].
        intros c [<-|Hc]; [exact E | now apply Hw].
Qed.

Lemma In_join c sep l :
  In c (join sep l) -> In c sep \/ exists x, In x l /\ In c x.
Proof.
  induction l as [|x l IH]; [intros []|].
  destruct l as [|y l].
  - simpl. intros H. right. exists x. auto.
  - change (join sep (x :: y :: l)) with (x ++ sep ++ join sep (y :: l)).
    intros H. apply in_app_or in H. destruct H as [H|H].
    + right. exists x. split; [now left | exact H].
    + apply in_app_or in H. destruct H as [H|H]; [now left|].
      destruct (IH H) as [Hs|[z [Hz Hc]]]; [now left|].
      right. exists z. split; [now right | exact Hc].
Qed.

Lemma clean_lines_trimmed text :
  strip (clean_lines text) = clean_lines text /\ ~ In LF (clean_lines text).
Proof.
  unfold clean_lines. split.
  - apply trimmed_strip_fixed, join_trimmed.
    apply Forall_forall. intros x Hx. apply in_map_iff in Hx.
    destruct Hx as [line [<- Hline]]. apply filter_In in Hline.
    destruct Hline as [_ Ht]. split; [|apply strip_trimmed].
    destruct (strip line); [discriminate Ht | discriminate].
  - intros H. apply In_join in H. destruct H as [H|[x [Hx Hc]]].
    + vm_compute in H. destruct H as [H|[]]. discriminate H.
    + apply in_map_iff in Hx. destruct Hx as [line [<- Hline]].
      apply filter_In in Hline. destruct Hline as [Hline _].
      apply In_strip in Hc.
      pose proof (fields_without_separator (N.eqb LF) text) as HF.
      rewrite Forall_forall in HF. specialize (HF line Hline LF Hc).
      vm_compute in HF. discriminate HF.
Qed.

(** What [extract_text] returns is the cleaned lines of some text, or the
    empty string. *)
Lemma extract_text_clean img s :
  image_recognition.extract_text img = Ok s
  \/ image_recognition_new.extract_text img = Ok s ->
  s = [] \/ exists text, s = clean_lines text.
Proof.
  destruct img as [[[]|] [t1|] [t2|] [t3|]];
    unfold image_recognition.extract_text, image_recognition_new.extract_text;
    cbn [convert_L ocr_sparse ocr_contrast ocr_mhd bind try_except];
    intros [H|H]; injection H as <-;
    solve [ now left | right; eexists; reflexivity ].
Qed.

(** C8 (as it holds): the string [extract_text] returns, in either file,
    has no white space at its ends and no line feed in it.  White space
    inside a line is kept as the OCR pass returned it. *)
Theorem C8_extract_text_trimmed img s :
  image_recognition.extract_text img = Ok s
  \/ image_recognition_new.extract_text img = Ok s ->
  strip s = s /\ ~ In LF s.
Proof.
  intros H. apply extract_text_clean in H.
  destruct H as [->|[text ->]].
  - split; [reflexivity | intros []].
  - apply clean_lines_trimmed.
Qed.

Lemma C8_extract_text_trimmed_witness :
  let s := u "Weizenmehl Type 405 MHD 12.2026" in
  image_recognition_new.extract_text (scan two_lines) = Ok s
  /\ strip s = s /\ ~ In LF s.
Proof.
  intros s.
  assert (H : image_recognition_new.extract_text (scan two_lines) = Ok s)
    by reflexivity.
  split; [exact H|].
  exact (@C8_extract_text_trimmed _ s (or_intror H)).
Defined.

(** C8, counterexample: two spaces inside a line stay two spaces. *)
Lemma C8_inner_white_space_kept :
  ~ (forall img s,
       image_recognition.extract_text img = Ok s
       \/ image_recognition_new.extract_text img = Ok s ->
       strip s = s /\ has_space_run s = false).
Proof.
  intros H.
  destruct (H (picture "a  b") (u "a  b") (or_introl eq_refl)) as [_ Hr].
  vm_compute in Hr. discriminate Hr.
Qed.

(** ** Sample runs of the model *)

Example u_decodes_utf8 :
  u "Käse" = [75; 228; 115; 101]%N /\ u "€" = [8364]%N.
Proof. split; reflexivity. Qed.

Example identify_prefers_longer_keyword :
  option_map name
    (image_recognition.identify_product_from_text (u "Bio Vollmilch 3.5%"))
  = Some (u "Vollmilch")
  /\ option_map name
       (image_recognition_new.identify_product_from_text
          (u "Bio Vollmilch 3.5%"))
     = Some (u "Vollmilch").
Proof. split; vm_compute; reflexivity. Qed.

Example title_dominant_word :
  image_recognition_new.get_best_text_for_title (u "xx yyyy zzzzzz")
  = u "Zzzzzz"
  /\ image_recognition.get_best_text_for_title (u "TYP 405") = u "Typ 405".
Proof. split; vm_compute; reflexivity. Qed.

Example strict_filter_patterns :
  image_recognition.is_meaningful_text (u "www.rewe.de") = true
  /\ image_recognition.is_meaningful_text (u "Preis 2,99 €") = true
  /\ image_recognition.is_meaningful_text (u "der Apfel und die Birne") = true
  /\ image_recognition.is_meaningful_text (u "frische Vollmilch") = false.
Proof. repeat split; vm_compute; reflexivity. Qed.

(** With a moderately confident classifier the synthesized product is
    dropped and the first visual entry carries the text. *)
Example moderate_confidence_drops_synthesized :
  option_map (fun e => (text_based e, extracted_text e))
    (hd_error (results_of (image_recognition.predict sample_recognizer
                             (upload "der Apfel und die Birne" moderate))))
  = Some (false, Some (u "der Apfel und die Birne")).
Proof. vm_compute. reflexivity. Qed.

Example predict_returns_five :
  len apfel_results = 5%nat /\ len mehl_results = 5%nat.
Proof. split; reflexivity. Qed.

(** * Further properties of the recognizer *)

(** ** The entries of the visual loop, one by one *)

Lemma visual_results_labelled self ex tbp pairs :
  forall i acc out,
    visual_results self ex tbp i pairs acc = Ok out ->
    exists vis,
      out = acc ++ vis
      /\ Forall2 (labelled self) pairs vis
      /\ forall j v,
           nth_error vis j = Some v ->
           extracted_text v
           = if ((i + j =? 0)%nat && truthy ex && negb (is_some tbp))%bool
             then Some ex else None.
Proof.
  induction pairs as [|[idx prob] rest IH]; simpl; intros i acc out H.
  - exists []. rewrite app_nil_r. split; [congruence|].
    split; [constructor|]. intros [|j] v Hj; discriminate Hj.
  - inv_bind H as cn Hcn. apply IH in H.
    destruct H as (vis & Hout & Hlab & Htext).
    eexists (_ :: vis). split; [rewrite Hout, <- app_assoc; reflexivity|].
    split.
    + constructor; [|exact Hlab]. unfold labelled. simpl. auto.
    + intros [|j] v Hj.
      * injection Hj as <-. simpl. now rewrite Nat.add_0_r.
      * simpl in Hj. rewrite (Htext j v Hj).
        now replace (i + S j)%nat with (S i + j)%nat by lia.
Qed.

Lemma visual_results_raises self ex tbp pairs :
  forall i acc,
    visual_results self ex tbp i pairs acc = Raise
    <-> exists pr, In pr pairs /\ index (categories self) (fst pr) = Raise.
Proof.
  induction pairs as [|[idx prob] rest IH]; simpl; intros i acc.
  - split; [discriminate | intros [pr [[] _]]].
  - destruct (index (categories self) idx) as [cn|] eqn:E; simpl.
    + rewrite IH. split; intros [pr [Hin Hpr]]; exists pr.
      * split; [now right | exact Hpr].
      * split; [|exact Hpr]. destruct Hin as [<-|Hin]; [|exact Hin].
        simpl in Hpr. congruence.
    + split; [|reflexivity]. intros _. exists (idx, prob). auto.
Qed.

Lemma Forall2_length_eq (A B : Type) (R : A -> B -> Prop) l1 l2 :
  Forall2 R l1 l2 -> List.length l1 = List.length l2.
Proof.
  induction 1; simpl; congruence.
Qed.

Lemma Forall2_firstn (A B : Type) (R : A -> B -> Prop) n l1 l2 :
  Forall2 R l1 l2 -> Forall2 R (firstn n l1) (firstn n l2).
Proof.
  intros H. revert n. induction H; intros [|n]; simpl; constructor; auto.
Qed.

Lemma extract_text_returns img :
  exists s, image_recognition.extract_text img = Ok s.
Proof.
  destruct img as [[[]|] [t1|] [t2|] [t3|]];
    unfold image_recognition.extract_text;
    cbn [convert_L ocr_sparse ocr_contrast ocr_mhd bind try_except];
    eexists; reflexivity.
Qed.

Lemma extract_text_new_returns img :
  exists s, image_recognition_new.extract_text img = Ok s.
Proof.
  destruct img as [[[]|] [t1|] [t2|] [t3|]];
    unfold image_recognition_new.extract_text;
    cbn [convert_L ocr_sparse ocr_contrast ocr_mhd bind try_except];
    eexists; reflexivity.
Qed.

(** The text channel of [image_recognition.py] always returns. *)
Lemma text_channel_returns top img :
  exists ex tbp, image_recognition.text_channel top img = Ok (ex, tbp).
Proof.
  unfold image_recognition.text_channel.
  destruct (Qgtb top 0.75); [eauto|].
  destruct (extract_text_returns img) as [s Hs]. rewrite Hs. simpl. eauto.
Qed.

Lemma predict_shape self file results :
  image_recognition.predict self file = Ok results ->
  exists img probs top ex tbp vis,
    preprocess_image file = Ok img
    /\ top5_prob file = Ok probs
    /\ index probs 0 = Ok top
    /\ image_recognition.text_channel top img = Ok (ex, tbp)
    /\ Forall2 (labelled self) (combine (top5_indices file) probs) vis
    /\ (forall j v,
          nth_error vis j = Some v ->
          extracted_text v
          = if ((j =? 0)%nat && truthy ex && negb (is_some tbp))%bool
            then Some ex else None)
    /\ results
       = firstn 5 (text_entries image_recognition.text_result tbp ex ++ vis).
Proof.
  unfold image_recognition.predict. intros H. inv_bind H as full Ha.
  injection H as <-.
  unfold image_recognition.results_before_slice in Ha.
  inv_bind Ha as img Himg. inv_bind Ha as probs Hprobs.
  inv_bind Ha as top Htop. inv_bind Ha as channel Hchannel.
  destruct channel as [ex tbp].
  apply visual_results_labelled in Ha.
  destruct Ha as (vis & Hout & Hlab & Htext).
  exists img, probs, top, ex, tbp, vis.
  do 5 (split; [assumption|]). split; [exact Htext|].
  rewrite Hout. destruct tbp; reflexivity.
Qed.

Lemma predict_new_shape self file results :
  image_recognition_new.predict self file = Ok results ->
  exists img probs ex vis,
    let tbp := image_recognition_new.identify_product_from_text ex in
    preprocess_image file = Ok img
    /\ top5_prob file = Ok probs
    /\ image_recognition_new.extract_text img = Ok ex
    /\ Forall2 (labelled self) (combine (top5_indices file) probs) vis
    /\ (forall j v,
          nth_error vis j = Some v ->
          extracted_text v
          = if ((j =? 0)%nat && truthy ex && negb (is_some tbp))%bool
            then Some ex else None)
    /\ results
       = firstn 5 (text_entries image_recognition_new.text_result tbp ex
                   ++ vis).
Proof.
  unfold image_recognition_new.predict. intros H. inv_bind H as full Ha.
  injection H as <-.
  unfold image_recognition_new.results_before_slice in Ha.
  inv_bind Ha as img Himg. inv_bind Ha as ex Hex. inv_bind Ha as probs Hprobs.
  apply visual_results_labelled in Ha.
  destruct Ha as (vis & Hout & Hlab & Htext).
  exists img, probs, ex, vis. cbv zeta.
  do 4 (split; [assumption|]). split; [exact Htext|].
  rewrite Hout.
  destruct (image_recognition_new.identify_product_from_text ex);
    reflexivity.
Qed.

(** ** X1: how many entries [predict] returns *)

Lemma length_text_entries mk tbp ex :
  (List.length (text_entries mk tbp ex) <= 1)%nat.
Proof.
  destruct tbp; simpl; lia.
Qed.

(** X1: [predict], in either file, returns at most five entries, at
    least as many as the classifier supplied up to five, and at most one
    more than the classifier supplied.  With five classifier results it
    returns exactly five. *)
Theorem X1_predict_length self file probs results :
  top5_prob file = Ok probs ->
  image_recognition.predict self file = Ok results
  \/ image_recognition_new.predict self file = Ok results ->
  let n := len (combine (top5_indices file) probs) in
  (len results <= 5)%nat
  /\ (Nat.min 5 n <= len results)%nat
  /\ (len results <= n + 1)%nat.
Proof.
  intros Hp H n. subst n. unfold len.
  assert (E : exists te vis : list prediction,
             (List.length te <= 1)%nat
             /\ List.length vis
                = List.length (combine (top5_indices file) probs)
             /\ results = firstn 5 (te ++ vis)).
  { destruct H as [H|H].
    - apply predict_shape in H.
      destruct H as (img & probs' & top & ex & tbp & vis
                     & _ & Hp' & _ & _ & Hlab & _ & ->).
      rewrite Hp in Hp'. injection Hp' as <-.
      exists (text_entries image_recognition.text_result tbp ex), vis.
      split; [apply length_text_entries|].
      split; [symmetry; exact (Forall2_length_eq Hlab) | reflexivity].
    - apply predict_new_shape in H.
      destruct H as (img & probs' & ex & vis & _ & Hp' & _ & Hlab & _ & ->).
      rewrite Hp in Hp'. injection Hp' as <-.
      eexists _, vis.
      split; [apply length_text_entries|].
      split; [symmetry; exact (Forall2_length_eq Hlab) | reflexivity]. }
  destruct E as (te & vis & Hte & Hvis & ->).
  rewrite length_firstn, length_app, Hvis. lia.
Qed.

Lemma X1_predict_length_witness :
  top5_prob apfel = Ok unsure
  /\ image_recognition.predict sample_recognizer apfel = Ok apfel_results
  /\ (len apfel_results <= 5)%nat
  /\ (Nat.min 5 5 <= len apfel_results)%nat
  /\ (len apfel_results <= 5 + 1)%nat.
Proof.
  assert (Hp : image_recognition.predict sample_recognizer apfel
               = Ok apfel_results) by reflexivity.
  split; [reflexivity|]. split; [exact Hp|].
  exact (@X1_predict_length sample_recognizer apfel unsure apfel_results
           eq_refl (or_introl Hp)).
Defined.

(** ** X2: where the extracted text is attached *)

Lemma nth_error_firstn_Some (A : Type) (n : nat) (l : list A) j e :
  nth_error (firstn n l) j = Some e -> nth_error l j = Some e.
Proof.
  revert l j. induction n as [|n IH]; intros [|x l] [|j]; simpl;
    try discriminate; auto.
Qed.

Lemma identify_new_not_blank text p :
  image_recognition_new.identify_product_from_text text = Some p ->
  truthy text = true.
Proof.
  unfold image_recognition_new.identify_product_from_text.
  destruct (truthy text); [reflexivity | discriminate].
Qed.

Lemma text_on_first_entry mk tbp ex vis j e :
  (forall p, extracted_text (mk p ex) = Some ex) ->
  (is_some tbp = true -> truthy ex = true) ->
  (forall j v,
     nth_error vis j = Some v ->
     extracted_text v
     = if ((j =? 0)%nat && truthy ex && negb (is_some tbp))%bool
       then Some ex else None) ->
  nth_error (firstn 5 (text_entries mk tbp ex ++ vis)) j = Some e ->
  extracted_text e = if ((j =? 0)%nat && truthy ex)%bool then Some ex else None.
Proof.
  intros Hmk Hne Htext Hj. apply nth_error_firstn_Some in Hj.
  destruct tbp as [p|]; simpl in Hj.
  - destruct j as [|j]; simpl in Hj.
    + injection Hj as <-. rewrite Hmk, Hne; reflexivity.
    + rewrite (Htext j e Hj). simpl. now rewrite !andb_false_r.
  - rewrite (Htext j e Hj). simpl. now rewrite andb_true_r.
Qed.

(** X2: in the list [predict] returns, in either file, the entry at index
    0 carries [extracted_text] exactly when the extracted text is not
    empty, and no other entry ever carries it.  (In
    [image_recognition.py] the extracted text is the empty string when the
    text channel is skipped.) *)
Theorem X2_extracted_text_on_first_entry_only self file img results j e :
  preprocess_image file = Ok img ->
  nth_error results j = Some e ->
  (forall probs top ex tbp,
     top5_prob file = Ok probs ->
     index probs 0 = Ok top ->
     image_recognition.text_channel top img = Ok (ex, tbp) ->
     image_recognition.predict self file = Ok results ->
     extracted_text e
     = if ((j =? 0)%nat && truthy ex)%bool then Some ex else None)
  /\ (forall ex,
        image_recognition_new.extract_text img = Ok ex ->
        image_recognition_new.predict self file = Ok results ->
        extracted_text e
        = if ((j =? 0)%nat && truthy ex)%bool then Some ex else None).
Proof.
  intros Himg Hj. split.
  - intros probs top ex tbp Hp Ht Hch H. apply predict_shape in H.
    destruct H as (img' & probs' & top' & ex' & tbp' & vis
                   & Himg' & Hp' & Ht' & Hch' & _ & Htext & ->).
    rewrite Himg in Himg'. injection Himg' as <-.
    rewrite Hp in Hp'. injection Hp' as <-.
    rewrite Ht in Ht'. injection Ht' as <-.
    rewrite Hch in Hch'. injection Hch' as <- <-.
    apply (@text_on_first_entry image_recognition.text_result tbp ex vis);
      try assumption; [reflexivity|].
    destruct tbp as [p|]; [intros _ | discriminate].
    apply text_channel_Some in Hch. destruct Hch as (_ & _ & Hm & _).
    apply meaningful_not_blank in Hm.
    destruct (truthy ex); [reflexivity | discriminate Hm].
  - intros ex Hex H. apply predict_new_shape in H.
    destruct H as (img' & probs & ex' & vis
                   & Himg' & _ & Hex' & _ & Htext & ->).
    rewrite Himg in Himg'. injection Himg' as <-.
    rewrite Hex in Hex'. injection Hex' as <-.
    apply (@text_on_first_entry image_recognition_new.text_result
             (image_recognition_new.identify_product_from_text ex) ex vis);
      try assumption; [reflexivity|].
    destruct (image_recognition_new.identify_product_from_text ex) as [p|]
      eqn:E; [intros _ | discriminate].
    exact (identify_new_not_blank _ E).
Qed.

Lemma X2_extracted_text_on_first_entry_only_witness :
  preprocess_image mehl = Ok (picture "Mehl")
  /\ (exists e1, nth_error mehl_results 1 = Some e1
                 /\ extracted_text e1 = None)
  /\ (exists e0, nth_error mehl_results 0 = Some e0
                 /\ extracted_text e0 = Some (u "Mehl")).
Proof.
  assert (Hp : image_recognition.predict sample_recognizer mehl
               = Ok mehl_results) by reflexivity.
  assert (Hc : image_recognition.text_channel 0.3 (picture "Mehl")
               = Ok (u "Mehl", None)) by reflexivity.
  split; [reflexivity|]. split.
  - eexists. split; [reflexivity|].
    exact (proj1 (@X2_extracted_text_on_first_entry_only sample_recognizer
                    mehl (picture "Mehl") mehl_results 1 _ eq_refl eq_refl)
                 unsure 0.3%Q (u "Mehl") None eq_refl eq_refl Hc Hp).
  - eexists. split; [reflexivity|].
    exact (proj1 (@X2_extracted_text_on_first_entry_only sample_recognizer
                    mehl (picture "Mehl") mehl_results 0 _ eq_refl eq_refl)
                 unsure 0.3%Q (u "Mehl") None eq_refl eq_refl Hc Hp).
Defined.

(** ** X3: the visual entries follow the classifier *)

(** X3: the list [predict] returns, in either file, is at most one
    text-based entry followed by the first classifier results in the
    classifier's order (five of them, four behind a text-based entry); each
    has the classifier's index and probability, the label
    [self.categories[idx]] as description and its slug as name. *)
Theorem X3_visual_entries_follow_classifier self file probs results :
  top5_prob file = Ok probs ->
  image_recognition.predict self file = Ok results
  \/ image_recognition_new.predict self file = Ok results ->
  exists te vis,
    results = te ++ vis
    /\ (len te <= 1)%nat
    /\ Forall (fun e => text_based e = true) te
    /\ Forall2 (labelled self)
               (firstn (5 - len te) (combine (top5_indices file) probs)) vis.
Proof.
  intros Hp H.
  assert (E : exists mk tbp ex vis,
             (forall p, text_based (mk p ex) = true)
             /\ Forall2 (labelled self) (combine (top5_indices file) probs) vis
             /\ results = firstn 5 (text_entries mk tbp ex ++ vis)).
  { destruct H as [H|H].
    - apply predict_shape in H.
      destruct H as (img & probs' & top & ex & tbp & vis
                     & _ & Hp' & _ & _ & Hlab & _ & ->).
      rewrite Hp in Hp'. injection Hp' as <-.
      exists image_recognition.text_result, tbp, ex, vis.
      split; [reflexivity|]. split; [exact Hlab | reflexivity].
    - apply predict_new_shape in H.
      destruct H as (img & probs' & ex & vis & _ & Hp' & _ & Hlab & _ & ->).
      rewrite Hp in Hp'. injection Hp' as <-.
      exists image_recognition_new.text_result,
        (image_recognition_new.identify_product_from_text ex), ex, vis.
      split; [reflexivity|]. split; [exact Hlab | reflexivity]. }
  destruct E as (mk & tbp & ex & vis & Hmk & Hlab & ->).
  destruct tbp as [p|]; simpl text_entries.
  - exists [mk p ex], (firstn 4 vis). split; [reflexivity|].
    split; [simpl; lia|]. split; [repeat constructor; apply Hmk|].
    apply (Forall2_firstn 4 Hlab).
  - exists [], (firstn 5 vis). split; [reflexivity|].
    split; [simpl; lia|]. split; [constructor|].
    apply (Forall2_firstn 5 Hlab).
Qed.

Lemma X3_visual_entries_follow_classifier_witness :
  image_recognition.predict sample_recognizer apfel = Ok apfel_results
  /\ exists te vis,
      apfel_results = te ++ vis
      /\ (len te <= 1)%nat
      /\ Forall (fun e => text_based e = true) te
      /\ Forall2 (labelled sample_recognizer)
                 (firstn (5 - len te) (combine (top5_indices apfel) unsure))
                 vis.
Proof.
  assert (Hp : image_recognition.predict sample_recognizer apfel
               = Ok apfel_results) by reflexivity.
  split; [exact Hp|].
  exact (@X3_visual_entries_follow_classifier sample_recognizer apfel unsure
           apfel_results eq_refl (or_introl Hp)).
Defined.

(** ** X4: when [predict] raises *)

(** X4: [predict] of [image_recognition.py] raises exactly when the file
    cannot be preprocessed, the model raises, the classification is empty,
    or a classifier index is outside [self.categories]; [predict] of
    [image_recognition_new.py] exactly in the first, second and last case.
    No outcome of the OCR passes makes [predict] raise. *)
Theorem X4_predict_raises_iff self file :
  (image_recognition.predict self file = Raise
   <-> preprocess_image file = Raise
       \/ top5_prob file = Raise
       \/ top5_prob file = Ok []
       \/ exists probs pr,
           top5_prob file = Ok probs
           /\ In pr (combine (top5_indices file) probs)
           /\ index (categories self) (fst pr) = Raise)
  /\ (image_recognition_new.predict self file = Raise
      <-> preprocess_image file = Raise
          \/ top5_prob file = Raise
          \/ exists probs pr,
              top5_prob file = Ok probs
              /\ In pr (combine (top5_indices file) probs)
              /\ index (categories self) (fst pr) = Raise).
Proof.
  unfold image_recognition.predict, image_recognition.results_before_slice,
    image_recognition_new.predict,
    image_recognition_new.results_before_slice.
  destruct (preprocess_image file) as [img|]; cbn [bind];
    [|split; split; auto].
  destruct (extract_text_new_returns img) as [exn ->]. cbn [bind].
  destruct (top5_prob file) as [probs|]; cbn [bind];
    [|split; split; auto].
  split.
  - destruct probs as [|top rest].
    + split; [auto | reflexivity].
    + change (index (top :: rest) 0) with (Ok top). cbn [bind].
      destruct (text_channel_returns top img) as (ex & tbp & ->). cbn [bind].
      match goal with
      | |- bind ?m _ = Raise <-> _ =>
        destruct m as [full|] eqn:E; cbn [bind]
      end.
      * split; [discriminate|].
        intros [H|[H|[H|(probs' & pr & Hp & Hin & Hr)]]];
          try discriminate.
        injection Hp as <-.
        assert (R : exists pr, In pr (combine (top5_indices file) (top :: rest))
                               /\ index (categories self) (fst pr) = Raise)
          by eauto.
        apply visual_results_raises with (i := 0%nat)
          (ex := ex) (tbp := tbp)
          (acc := match tbp with
                  | Some p => [] ++ [image_recognition.text_result p ex]
                  | None => []
                  end) in R.
        congruence.
      * split; [intros _ | reflexivity].
        apply visual_results_raises in E. destruct E as (pr & Hin & Hr).
        right. right. right. exists (top :: rest), pr. auto.
  - match goal with
    | |- bind ?m _ = Raise <-> _ =>
      destruct m as [full|] eqn:E; cbn [bind]
    end.
    + split; [discriminate|].
      intros [H|[H|(probs' & pr & Hp & Hin & Hr)]]; try discriminate.
      injection Hp as <-.
      assert (R : exists pr, In pr (combine (top5_indices file) probs)
                             /\ index (categories self) (fst pr) = Raise)
        by eauto.
      apply visual_results_raises with (i := 0%nat)
        (ex := exn)
        (tbp := image_recognition_new.identify_product_from_text exn)
        (acc := match image_recognition_new.identify_product_from_text exn
                with
                | Some p => [] ++ [image_recognition_new.text_result p exn]
                | None => []
                end) in R.
      congruence.
    + split; [intros _ | reflexivity].
      apply visual_results_raises in E. destruct E as (pr & Hin & Hr).
      right. right. exists probs, pr. auto.
Qed.

(** ** The best match of the registry *)

Lemma scan_inv_step text_lower seen st entry :
  (0 < score entry)%Q ->
  scan_inv text_lower seen st ->
  scan_inv text_lower (seen ++ [entry]) (scan_step text_lower st entry).
Proof.
  intros Hpos Hinv. destruct st as [best best_score], entry as [key prod].
  unfold scan_step.
  change (of_nat (len key) * confidence_boost prod)%Q with (score (key, prod)).
  unfold scan_inv in *. cbn [fst snd] in *.
  pose proof (eq_refl : matches text_lower (key, prod)
                        = contains (lower key) text_lower) as Em.
  destruct (contains (lower key) text_lower).
  - destruct (Qgtb (score (key, prod)) best_score) eqn:Eg.
    + apply Qgtb_true in Eg. cbn [fst snd].
      exists key. split; [apply in_or_app; right; now left|].
      split; [exact Em|]. split; [reflexivity|].
      apply Forall_app. split; [|repeat constructor; intros _; apply Qle_refl].
      destruct best as [q|].
      * destruct Hinv as (k & _ & _ & _ & Hall).
        eapply Forall_impl; [|exact Hall]. intros e He Hm.
        apply Qle_trans with best_score; [now apply He | now apply Qlt_le_weak].
      * destruct Hinv as [_ Hall].
        eapply Forall_impl; [|exact Hall]. intros e He Hm. congruence.
    + apply Qgtb_false in Eg. cbn [fst snd].
      destruct best as [q|].
      * destruct Hinv as (k & Hin & Hm & Hs & Hall).
        exists k. split; [apply in_or_app; now left|].
        split; [exact Hm|]. split; [exact Hs|].
        apply Forall_app. split; [exact Hall|].
        repeat constructor. intros _. exact Eg.
      * destruct Hinv as [Hz _]. subst best_score.
        exfalso. exact (Qlt_not_le _ _ Hpos Eg).
  - cbn [fst snd]. destruct best as [q|].
    + destruct Hinv as (k & Hin & Hm & Hs & Hall).
      exists k. split; [apply in_or_app; now left|].
      split; [exact Hm|]. split; [exact Hs|].
      apply Forall_app. split; [exact Hall|].
      repeat constructor. intros Hm'. congruence.
    + destruct Hinv as [Hz Hall]. split; [exact Hz|].
      apply Forall_app. split; [exact Hall | repeat constructor; exact Em].
Qed.

Lemma scan_inv_fold text_lower reg :
  Forall (fun e => (0 < score e)%Q) reg ->
  forall seen st,
    scan_inv text_lower seen st ->
    scan_inv text_lower (seen ++ reg) (fold_left (scan_step text_lower) reg st).
Proof.
  induction 1 as [|entry reg Hpos _ IH]; intros seen st Hinv; simpl.
  - now rewrite app_nil_r.
  - replace (seen ++ entry :: reg) with ((seen ++ [entry]) ++ reg)
      by (rewrite <- app_assoc; reflexivity).
    apply IH. now apply scan_inv_step.
Qed.

Lemma scan_result text_lower reg :
  Forall (fun e => (0 < score e)%Q) reg ->
  scan_inv text_lower reg (fold_left (scan_step text_lower) reg (None, 0%Q)).
Proof.
  intros Hpos.
  apply (@scan_inv_fold text_lower reg Hpos [] (None, 0%Q)).
  split; [reflexivity | constructor].
Qed.

Lemma registry_scores_positive :
  Forall (fun e => (0 < score e)%Q) image_recognition.PRODUCT_TEXT_MAPPING.
Proof.
  apply Forall_forall. intros e Hin. apply Qgtb_true.
  revert e Hin. apply forallb_forall. reflexivity.
Qed.

Lemma registry_new_scores_positive :
  Forall (fun e => (0 < score e)%Q) image_recognition_new.PRODUCT_TEXT_MAPPING.
Proof.
  apply Forall_forall. intros e Hin. apply Qgtb_true.
  revert e Hin. apply forallb_forall. reflexivity.
Qed.

(** The best match: an entry of [reg] whose key occurs in the text and
    whose score no matching entry exceeds. *)
Lemma best_match_of_scan text_lower reg p :
  Forall (fun e => (0 < score e)%Q) reg ->
  fst (fold_left (scan_step text_lower) reg (None, 0%Q)) = Some p ->
  exists key,
    In (key, p) reg
    /\ matches text_lower (key, p) = true
    /\ Forall (fun e => matches text_lower e = true ->
                        (score e <= score (key, p))%Q) reg.
Proof.
  intros Hpos E. pose proof (scan_result text_lower Hpos) as Hinv.
  unfold scan_inv in Hinv. rewrite E in Hinv.
  destruct Hinv as (key & Hin & Hm & Hs & Hall).
  exists key. rewrite <- Hs. auto.
Qed.

Lemma no_match_of_scan text_lower reg :
  Forall (fun e => (0 < score e)%Q) reg ->
  fst (fold_left (scan_step text_lower) reg (None, 0%Q)) = None ->
  Forall (fun e => matches text_lower e = false) reg.
Proof.
  intros Hpos E. pose proof (scan_result text_lower Hpos) as Hinv.
  unfold scan_inv in Hinv. rewrite E in Hinv. tauto.
Qed.

Lemma no_keyword_matches reg text :
  no_keyword reg text
  <-> Forall (fun e => matches (lower text) e = false) reg.
Proof.
  reflexivity.
Qed.

Lemma identify_cases text p :
  image_recognition.identify_product_from_text text = Some p ->
  (exists key,
     In (key, p) image_recognition.PRODUCT_TEXT_MAPPING
     /\ matches (lower text) (key, p) = true
     /\ Forall (fun e => matches (lower text) e = true ->
                         (score e <= score (key, p))%Q)
               image_recognition.PRODUCT_TEXT_MAPPING)
  \/ (no_keyword image_recognition.PRODUCT_TEXT_MAPPING text
      /\ image_recognition.is_meaningful_text text = true
      /\ name p = image_recognition.get_best_text_for_title text
      /\ description p = image_recognition.get_best_text_for_title text
      /\ confidence_boost p = 0.85%Q).
Proof.
  unfold image_recognition.identify_product_from_text.
  destruct (negb (truthy text) || str_eqb (strip text) (u ""));
    [discriminate|].
  destruct (fst (fold_left (scan_step (lower text))
                   image_recognition.PRODUCT_TEXT_MAPPING (None, 0%Q)))
    as [q|] eqn:E.
  - intros [= <-]. left.
    exact (best_match_of_scan _ registry_scores_positive E).
  - destruct (image_recognition.is_meaningful_text text) eqn:Em;
      [|discriminate].
    intros [= <-]. right. split; [|auto].
    apply no_keyword_matches.
    exact (no_match_of_scan _ registry_scores_positive E).
Qed.

Lemma identify_new_cases text p :
  image_recognition_new.identify_product_from_text text = Some p ->
  (exists key,
     In (key, p) image_recognition_new.PRODUCT_TEXT_MAPPING
     /\ matches (lower text) (key, p) = true
     /\ Forall (fun e => matches (lower text) e = true ->
                         (score e <= score (key, p))%Q)
               image_recognition_new.PRODUCT_TEXT_MAPPING)
  \/ (no_keyword image_recognition_new.PRODUCT_TEXT_MAPPING text
      /\ image_recognition_new.is_meaningful_text text = true
      /\ name p = image_recognition_new.get_best_text_for_title text
      /\ description p = image_recognition_new.get_best_text_for_title text
      /\ confidence_boost p = 0.9%Q).
Proof.
  unfold image_recognition_new.identify_product_from_text.
  destruct (negb (truthy text) || str_eqb (strip text) (u ""));
    [discriminate|].
  destruct (fst (fold_left (scan_step (lower text))
                   image_recognition_new.PRODUCT_TEXT_MAPPING (None, 0%Q)))
    as [q|] eqn:E.
  - intros [= <-]. left.
    exact (best_match_of_scan _ registry_new_scores_positive E).
  - destruct (image_recognition_new.is_meaningful_text text) eqn:Em;
      [|discriminate].
    intros [= <-]. right. split; [|auto].
    apply no_keyword_matches.
    exact (no_match_of_scan _ registry_new_scores_positive E).
Qed.

(** ** X5: the registry match has the best score *)

(** X5: when [identify_product_from_text] returns a product, in either
    file, it is a registry entry whose key occurs in the text (ignoring
    case) and whose score [len(key) * confidence_boost] no other matching
    entry exceeds; or no key occurs, the text is meaningful, and name and
    description are the title made from the text. *)
Theorem X5_identify_best_score text p :
  (image_recognition.identify_product_from_text text = Some p ->
   (exists key,
      In (key, p) image_recognition.PRODUCT_TEXT_MAPPING
      /\ matches (lower text) (key, p) = true
      /\ Forall (fun e => matches (lower text) e = true ->
                          (score e <= score (key, p))%Q)
                image_recognition.PRODUCT_TEXT_MAPPING)
   \/ (no_keyword image_recognition.PRODUCT_TEXT_MAPPING text
       /\ image_recognition.is_meaningful_text text = true
       /\ name p = image_recognition.get_best_text_for_title text
       /\ description p = image_recognition.get_best_text_for_title text))
  /\ (image_recognition_new.identify_product_from_text text = Some p ->
      (exists key,
         In (key, p) image_recognition_new.PRODUCT_TEXT_MAPPING
         /\ matches (lower text) (key, p) = true
         /\ Forall (fun e => matches (lower text) e = true ->
                             (score e <= score (key, p))%Q)
                   image_recognition_new.PRODUCT_TEXT_MAPPING)
      \/ (no_keyword image_recognition_new.PRODUCT_TEXT_MAPPING text
          /\ image_recognition_new.is_meaningful_text text = true
          /\ name p = image_recognition_new.get_best_text_for_title text
          /\ description p
             = image_recognition_new.get_best_text_for_title text)).
Proof.
  split; intros H.
  - destruct (identify_cases _ H) as [Hk|(Hno & Hm & Hn & Hd & _)]; auto.
  - destruct (identify_new_cases _ H) as [Hk|(Hno & Hm & Hn & Hd & _)]; auto.
Qed.

Lemma X5_identify_best_score_witness :
  let text := u "Bio Vollmilch 3.5%" in
  exists p,
    image_recognition_new.identify_product_from_text text = Some p
    /\ name p = u "Vollmilch"
    /\ ((exists key,
           In (key, p) image_recognition_new.PRODUCT_TEXT_MAPPING
           /\ matches (lower text) (key, p) = true
           /\ Forall (fun e => matches (lower text) e = true ->
                               (score e <= score (key, p))%Q)
                     image_recognition_new.PRODUCT_TEXT_MAPPING)
        \/ (no_keyword image_recognition_new.PRODUCT_TEXT_MAPPING text
            /\ image_recognition_new.is_meaningful_text text = true
            /\ name p = image_recognition_new.get_best_text_for_title text
            /\ description p
               = image_recognition_new.get_best_text_for_title text)).
Proof.
  intros text.
  exists {| name := u "Vollmilch"; description := u "Vollmilch";
            confidence_boost := 0.8 |}.
  assert (H : image_recognition_new.identify_product_from_text text
              = Some {| name := u "Vollmilch"; description := u "Vollmilch";
                        confidence_boost := 0.8 |}) by reflexivity.
  split; [exact H|]. split; [reflexivity|].
  exact (proj2 (X5_identify_best_score text _) H).
Defined.

(** ** X6: when no product is identified *)

(** X6: [identify_product_from_text], in either file, returns [None]
    exactly when the text is empty or blank, or when no registry key
    occurs in it and the file's filter rejects it. *)
Theorem X6_identify_none_iff text :
  (image_recognition.identify_product_from_text text = None
   <-> blank_text text = true
       \/ (no_keyword image_recognition.PRODUCT_TEXT_MAPPING text
           /\ image_recognition.is_meaningful_text text = false))
  /\ (image_recognition_new.identify_product_from_text text = None
      <-> blank_text text = true
          \/ (no_keyword image_recognition_new.PRODUCT_TEXT_MAPPING text
              /\ image_recognition_new.is_meaningful_text text = false)).
Proof.
  split.
  - unfold image_recognition.identify_product_from_text.
    fold (blank_text text). destruct (blank_text text); [tauto|].
    destruct (fst (fold_left (scan_step (lower text))
                     image_recognition.PRODUCT_TEXT_MAPPING (None, 0%Q)))
      as [q|] eqn:E.
    + split; [discriminate|]. intros [H|[Hno _]]; [discriminate H|].
      rewrite (@scan_no_match _ _ Hno) in E. discriminate E.
    + apply (no_match_of_scan _ registry_scores_positive) in E.
      destruct (image_recognition.is_meaningful_text text).
      * split; [discriminate|]. intros [H|[_ H]]; discriminate H.
      * split; [|reflexivity]. intros _. right. split; [exact E | reflexivity].
  - unfold image_recognition_new.identify_product_from_text.
    fold (blank_text text). destruct (blank_text text); [tauto|].
    destruct (fst (fold_left (scan_step (lower text))
                     image_recognition_new.PRODUCT_TEXT_MAPPING (None, 0%Q)))
      as [q|] eqn:E.
    + split; [discriminate|]. intros [H|[Hno _]]; [discriminate H|].
      rewrite (@scan_no_match _ _ Hno) in E. discriminate E.
    + apply (no_match_of_scan _ registry_new_scores_positive) in E.
      destruct (image_recognition_new.is_meaningful_text text).
      * split; [discriminate|]. intros [H|[_ H]]; discriminate H.
      * split; [|reflexivity]. intros _. right. split; [exact E | reflexivity].
Qed.

(** ** X7: the threshold at 0.4 *)

Lemma Forall_exists_match (reg : list (str * product)) text_lower :
  Forall (fun e => matches text_lower e = false) reg ->
  (exists e, In e reg /\ matches text_lower e = true) ->
  False.
Proof.
  intros Hall [e [Hin Hm]]. rewrite Forall_forall in Hall.
  apply Hall in Hin. congruence.
Qed.

(** X7: in [image_recognition.py], when the text channel runs (top visual
    confidence at most 0.75) and extracts a meaningful text in which a
    registry key occurs, the returned list starts with the text-based
    entry of a registry product, whatever the visual confidence; and with
    a top visual confidence above 0.4 a text-based entry is always the
    entry of a registry product, never of one synthesized from the
    text. *)
Theorem X7_known_product_always_first self file img probs top ex results :
  preprocess_image file = Ok img ->
  top5_prob file = Ok probs ->
  index probs 0 = Ok top ->
  (top <= 0.75)%Q ->
  image_recognition.extract_text img = Ok ex ->
  image_recognition.predict self file = Ok results ->
  (image_recognition.is_meaningful_text ex = true ->
   (exists e, In e image_recognition.PRODUCT_TEXT_MAPPING
              /\ matches (lower ex) e = true) ->
   exists key p,
     In (key, p) image_recognition.PRODUCT_TEXT_MAPPING
     /\ matches (lower ex) (key, p) = true
     /\ nth_error results 0 = Some (image_recognition.text_result p ex))
  /\ (forall e,
        In e results ->
        text_based e = true ->
        (0.4 < top)%Q ->
        exists key p,
          In (key, p) image_recognition.PRODUCT_TEXT_MAPPING
          /\ e = image_recognition.text_result p ex).
Proof.
  intros Himg Hp Ht Hlow Hex H. apply predict_inv in H.
  destruct H as (img' & probs' & top' & ex' & tbp & vis
                 & Himg' & Hp' & Ht' & Hch & Hvis & _ & ->).
  rewrite Himg in Himg'. injection Himg' as <-.
  rewrite Hp in Hp'. injection Hp' as <-.
  rewrite Ht in Ht'. injection Ht' as <-.
  split.
  - intros Hm Hkey.
    unfold image_recognition.text_channel in Hch.
    apply Qgtb_false in Hlow. rewrite Hlow, Hex in Hch. cbn [bind] in Hch.
    rewrite Hm in Hch.
    destruct (image_recognition.identify_product_from_text ex) as [p|] eqn:Ei.
    + destruct (identify_cases _ Ei)
        as [(key & Hin & Hmatch & _)|(Hno & _)].
      * assert (Hb : Qltb (confidence_boost p) 1.2 = false).
        { apply Qltb_false. pose proof registry_boosts as Hr.
          rewrite Forall_forall in Hr. exact (Hr _ Hin). }
        rewrite Hb in Hch.
        assert (E : (ex', tbp) = (ex, Some p))
          by (destruct (Qgtb top 0.4); congruence).
        injection E as -> ->. exists key, p. auto.
      * exfalso. exact (@Forall_exists_match _ (lower ex) Hno Hkey).
    + exfalso.
      pose proof (meaningful_not_blank _ Hm) as Hnb.
      unfold image_recognition.identify_product_from_text in Ei.
      rewrite Hnb, Hm in Ei.
      destruct (fst (fold_left (scan_step (lower ex))
                       image_recognition.PRODUCT_TEXT_MAPPING (None, 0%Q)));
        discriminate Ei.
  - intros e Hin Hte Hhigh.
    destruct (@text_based_in_results _ _ _ _ _ (visual_of_not_text Hvis)
                Hin Hte) as [p [-> ->]].
    apply text_channel_Some in Hch.
    destruct Hch as (_ & Hex' & _ & Hid & Hspec).
    rewrite Hex in Hex'. injection Hex' as <-.
    destruct (identify_cases _ Hid)
      as [(key & Hk & _)|(_ & _ & _ & _ & Hb)].
    + exists key, p. auto.
    + exfalso. destruct Hspec as [Hs|Hs].
      * exact (Qlt_not_le _ _ Hhigh Hs).
      * rewrite Hb in Hs. revert Hs. apply Qlt_not_le. reflexivity.
Qed.

Lemma X7_known_product_always_first_witness :
  let ex := u "der Apfel und die Weizenmehl" in
  image_recognition.predict sample_recognizer weizen = Ok weizen_results
  /\ (0.5 <= 0.75)%Q
  /\ image_recognition.is_meaningful_text ex = true
  /\ exists key p,
      In (key, p) image_recognition.PRODUCT_TEXT_MAPPING
      /\ matches (lower ex) (key, p) = true
      /\ nth_error weizen_results 0
         = Some (image_recognition.text_result p ex).
Proof.
  intros ex.
  assert (Hp : image_recognition.predict sample_recognizer weizen
               = Ok weizen_results) by reflexivity.
  assert (Hlow : (0.5 <= 0.75)%Q) by discriminate.
  assert (Hm : image_recognition.is_meaningful_text ex = true)
    by reflexivity.
  split; [exact Hp|]. split; [exact Hlow|]. split; [exact Hm|].
  apply (proj1 (@X7_known_product_always_first sample_recognizer weizen
                  (picture "der Apfel und die Weizenmehl") moderate 0.5%Q ex
                  weizen_results eq_refl eq_refl eq_refl Hlow eq_refl Hp)
               Hm).
  exists (u "Weizenmehl",
          {| name := u "Weizenmehl"; description := u "Weizenmehl";
             confidence_boost := 1.5 |}).
  split; [|reflexivity]. unfold image_recognition.PRODUCT_TEXT_MAPPING.
  simpl. auto.
Defined.

(** ** X8: what an accepted text must contain *)

Lemma count_app p a b : count p (a ++ b) = (count p a + count p b)%nat.
Proof.
  unfold count. now rewrite filter_app, length_app.
Qed.

Lemma count_rev p s : count p (rev s) = count p s.
Proof.
  induction s as [|c r IH]; [reflexivity|].
  simpl rev. rewrite count_app, IH. unfold count. simpl.
  destruct (p c); simpl; lia.
Qed.

Lemma count_lstrip p s : (count p (lstrip s) <= count p s)%nat.
Proof.
  induction s as [|c r IH]; simpl; [lia|].
  destruct (isspace c); [|lia].
  unfold count in *. simpl. destruct (p c); simpl; lia.
Qed.

Lemma count_strip p s : (count p (strip s) <= count p s)%nat.
Proof.
  unfold strip, rstrip. rewrite count_rev.
  eapply Nat.le_trans; [apply count_lstrip|].
  rewrite count_rev. apply count_lstrip.
Qed.

Lemma count_removed p cls s :
  (count p (re_sub_class cls (u "") s) <= count p s)%nat.
Proof.
  unfold re_sub_class, count.
  induction s as [|c r IH]; simpl; [lia|].
  destruct (cls c); simpl; destruct (p c); simpl; lia.
Qed.

Lemma count_field p sep s w :
  In w (fields sep s) -> (count p w <= count p s)%nat.
Proof.
  revert w. induction s as [|c r IH]; simpl; intros w Hw.
  - destruct Hw as [<-|[]]. lia.
  - assert (Hc : (count p r <= count p (c :: r))%nat)
      by (unfold count; simpl; destruct (p c); simpl; lia).
    destruct (sep c).
    + destruct Hw as [<-|Hw]; [unfold count; simpl; lia|].
      specialize (IH w Hw). lia.
    + destruct (fields sep r) as [|f fs].
      * destruct Hw as [<-|[]]. unfold count. simpl.
        destruct (p c); simpl; lia.
      * destruct Hw as [<-|Hw].
        -- specialize (IH f (or_introl eq_refl)).
           unfold count in *. simpl. destruct (p c); simpl; lia.
        -- specialize (IH w (or_intror Hw)). lia.
Qed.

Lemma count_word s w :
  In w (split s) -> (count isalpha w <= count isalpha s)%nat.
Proof.
  unfold split. intros H. apply filter_In in H. destruct H as [H _].
  exact (count_field isalpha isspace s w H).
Qed.

Lemma count_all p w : forallb p w = true -> count p w = len w.
Proof.
  unfold count, len. induction w as [|c r IH]; simpl; [reflexivity|].
  intros H. apply andb_true_iff in H. destruct H as [-> Hr].
  simpl. now rewrite IH.
Qed.

Lemma Qgtb_ratio (a b c : Q) :
  (0 < b)%Q -> Qgtb (a / b) c = true -> (c * b < a)%Q.
Proof.
  intros Hb H. apply Qgtb_true in H.
  apply (Qmult_lt_r _ _ b Hb) in H.
  assert (E : (a / b * b == a)%Q).
  { field. intros E. rewrite E in Hb. exact (Qlt_irrefl _ Hb). }
  now rewrite E in H.
Qed.

Lemma strict_accepts_inv text :
  image_recognition.is_meaningful_text text = true ->
  (6 <= len (strip text))%nat
  /\ (6 <= len (cleaned_strict text))%nat
  /\ exists w,
      In w (split (cleaned_strict text))
      /\ (5 <= len w)%nat
      /\ str_isalpha w = true.
Proof.
  unfold image_recognition.is_meaningful_text. cbv zeta.
  fold (cleaned_strict text).
  destruct (negb (truthy text) || (len (strip text) <? 6)%nat) eqn:E1;
    [discriminate|].
  destruct (Qgtb _ 0.3); [discriminate|].
  destruct (len (cleaned_strict text) <? 6)%nat eqn:E3; [discriminate|].
  destruct (filter (fun w => (5 <=? len w)%nat && str_isalpha w)
                   (split (cleaned_strict text))) as [|w ws] eqn:E4;
    [discriminate|].
  intros _. apply orb_false_iff in E1. destruct E1 as [_ E1].
  apply Nat.ltb_ge in E1, E3. split; [exact E1|]. split; [exact E3|].
  assert (Hw : In w (filter (fun w => (5 <=? len w)%nat && str_isalpha w)
                            (split (cleaned_strict text))))
    by (rewrite E4; now left).
  apply filter_In in Hw. destruct Hw as [Hin Hw].
  apply andb_true_iff in Hw. destruct Hw as [Hl Ha].
  exists w. split; [exact Hin|]. split; [now apply Nat.leb_le | exact Ha].
Qed.

Lemma new_accepts_inv text :
  image_recognition_new.is_meaningful_text text = true ->
  let cleaned := strip (re_sub_class image_recognition_new.not_word_space
                          (u "") text) in
  (3 <= len (strip text))%nat
  /\ (3 <= len cleaned)%nat
  /\ Qgtb (of_nat (count isalpha cleaned) / (of_nat (len cleaned) + 0.001))
          0.5 = true.
Proof.
  unfold image_recognition_new.is_meaningful_text. cbv zeta.
  destruct (negb (truthy text) || (len (strip text) <? 3)%nat) eqn:E1;
    [discriminate|].
  destruct (len (strip (re_sub_class image_recognition_new.not_word_space
                          (u "") text)) <? 3)%nat eqn:E3; [discriminate|].
  destruct (1 <=? len _)%nat; [|discriminate].
  destruct (Qgtb _ 0.5) eqn:E5; [|discriminate].
  intros _. apply orb_false_iff in E1. destruct E1 as [_ E1].
  apply Nat.ltb_ge in E1, E3. auto.
Qed.

(** X8: the filter of [image_recognition.py] accepts only a text that has
    at least six characters after trimming and, once its special
    characters are removed, a word of at least five characters that are
    all letters; such a text has at least five letters.  The filter of
    [image_recognition_new.py] accepts only a text of at least three
    characters after trimming with at least two letters.  So neither
    accepts a text without letters (a bare date, price or number). *)
Theorem X8_accepted_text_has_letters text :
  (image_recognition.is_meaningful_text text = true ->
   (6 <= len (strip text))%nat
   /\ (exists w,
         In w (split (cleaned_strict text))
         /\ (5 <= len w)%nat
         /\ str_isalpha w = true)
   /\ (5 <= count isalpha text)%nat)
  /\ (image_recognition_new.is_meaningful_text text = true ->
      (3 <= len (strip text))%nat /\ (2 <= count isalpha text)%nat).
Proof.
  split; intros H.
  - apply strict_accepts_inv in H.
    destruct H as (H1 & _ & w & Hin & Hl & Ha).
    split; [exact H1|]. split; [eauto|].
    apply count_word in Hin as Hc.
    unfold str_isalpha in Ha. apply andb_true_iff in Ha.
    destruct Ha as [_ Ha]. rewrite (count_all _ _ Ha) in Hc.
    unfold cleaned_strict in Hc.
    pose proof (count_strip isalpha
                  (re_sub_class image_recognition.not_word_space_umlaut
                     (u "") text)) as H2.
    pose proof (count_removed isalpha
                  image_recognition.not_word_space_umlaut text) as H3.
    lia.
  - apply new_accepts_inv in H. cbv zeta in H.
    destruct H as (H1 & H2 & H3). split; [exact H1|].
    set (cleaned := strip (re_sub_class image_recognition_new.not_word_space
                             (u "") text)) in *.
    apply Qgtb_ratio in H3.
    + pose proof (count_strip isalpha
                    (re_sub_class image_recognition_new.not_word_space
                       (u "") text)) as H4.
      pose proof (count_removed isalpha
                    image_recognition_new.not_word_space text) as H5.
      fold cleaned in H4.
      assert (H6 : (2 <= count isalpha cleaned)%nat).
      { revert H3 H2. generalize (count isalpha cleaned) as a.
        generalize (len cleaned) as l. intros l a.
        unfold of_nat, Qlt, Qplus, Qmult, inject_Z. cbn [Qnum Qden]. lia. }
      lia.
    + unfold of_nat, Qlt, Qplus, inject_Z. cbn [Qnum Qden]. lia.
Qed.

Lemma X8_accepted_text_has_letters_witness :
  let text := u "der Apfel und die Birne" in
  image_recognition.is_meaningful_text text = true
  /\ (6 <= len (strip text))%nat
  /\ (exists w,
        In w (split (cleaned_strict text))
        /\ (5 <= len w)%nat
        /\ str_isalpha w = true)
  /\ (5 <= count isalpha text)%nat.
Proof.
  intros text.
  assert (H : image_recognition.is_meaningful_text text = true)
    by reflexivity.
  split; [exact H|].
  exact (proj1 (X8_accepted_text_has_letters text) H).
Defined.

(** ** X9: the dictionary of the strict filter *)

Lemma in_range_true lo hi c :
  in_range lo hi c = true <-> (lo <= c /\ c <= hi)%N.
Proof.
  unfold in_range. rewrite andb_true_iff, !N.leb_le. tauto.
Qed.

Lemma in_range_false lo hi c :
  in_range lo hi c = false <-> (c < lo \/ hi < c)%N.
Proof.
  unfold in_range. rewrite andb_false_iff, !N.leb_gt. tauto.
Qed.

Lemma lower_char_idem c : lower_char (lower_char c) = lower_char c.
Proof.
  unfold lower_char.
  destruct (in_range 65 90 c) eqn:E1.
  - apply in_range_true in E1.
    assert (F1 : in_range 65 90 (c + 32) = false)
      by (apply in_range_false; lia).
    assert (F2 : in_range 192 222 (c + 32) = false)
      by (apply in_range_false; lia).
    now rewrite F1, F2.
  - destruct (in_range 192 222 c && negb (c =? 215)%N) eqn:E2.
    + apply andb_true_iff in E2. destruct E2 as [E2 _].
      apply in_range_true in E2.
      assert (F1 : in_range 65 90 (c + 32) = false)
        by (apply in_range_false; lia).
      assert (F2 : in_range 192 222 (c + 32) = false)
        by (apply in_range_false; lia).
      now rewrite F1, F2.
    + now rewrite E1, E2.
Qed.

Lemma lower_idem s : lower (lower s) = lower s.
Proof.
  unfold lower. rewrite map_map. apply map_ext. apply lower_char_idem.
Qed.

Lemma mem_In x l : mem x l = true <-> In x l.
Proof.
  unfold mem. rewrite existsb_exists. split.
  - intros [e [Hin He]]. unfold str_eqb in He.
    destruct (list_eq_dec N.eq_dec x e); [now subst | discriminate].
  - intros H. exists x. split; [exact H|]. unfold str_eqb.
    destruct (list_eq_dec N.eq_dec x x); [reflexivity | congruence].
Qed.

(** X9: the strict filter looks the lower-cased word up in
    [common_german_words], so a word counts as known only if it is, apart
    from case, one of the nine entries written in lower case ([und],
    [der], [die], [das], [mit], [für], [von], [bei], [aus]); every
    capitalized entry of the dictionary, such as [Weizenmehl] or [Milch],
    is never found. *)
Theorem X9_only_lower_case_entries_known w :
  mem (lower w) image_recognition.common_german_words = true ->
  mem (lower w) function_words = true.
Proof.
  intros H. apply mem_In in H. apply mem_In.
  assert (Hfix : str_eqb (lower (lower w)) (lower w) = true).
  { rewrite lower_idem. unfold str_eqb.
    destruct (list_eq_dec N.eq_dec (lower w) (lower w));
      [reflexivity | congruence]. }
  assert (Hf : In (lower w)
                  (filter (fun e => str_eqb (lower e) e)
                          image_recognition.common_german_words))
    by (apply filter_In; auto).
  exact Hf.
Qed.

Lemma X9_only_lower_case_entries_known_witness :
  mem (lower (u "Und")) image_recognition.common_german_words = true
  /\ mem (lower (u "Und")) function_words = true.
Proof.
  assert (H : mem (lower (u "Und")) image_recognition.common_german_words
              = true) by reflexivity.
  split; [exact H|].
  exact (X9_only_lower_case_entries_known (u "Und") H).
Defined.

(** ** X10: the extracted text is a fixed point of the clean-up *)

Lemma fields_without_sep sep s :
  (forall c, In c s -> sep c = false) -> fields sep s = [s].
Proof.
  induction s as [|c r IH]; simpl; intros H; [reflexivity|].
  rewrite (H c (or_introl eq_refl)), IH; [reflexivity|].
  intros x Hx. apply H. now right.
Qed.

Lemma clean_lines_fixed s :
  strip s = s -> ~ In LF s -> clean_lines s = s.
Proof.
  intros Hs Hlf. unfold clean_lines, split_on.
  rewrite fields_without_sep.
  - cbn [filter]. rewrite Hs. destruct s as [|c r]; [reflexivity|].
    cbn [truthy is_empty negb List.map join]. now rewrite Hs.
  - intros c Hc. apply N.eqb_neq. intros <-. exact (Hlf Hc).
Qed.

Lemma extract_text_scan s :
  image_recognition.extract_text (scan s) = Ok (clean_lines s)
  /\ image_recognition_new.extract_text (scan s) = Ok (clean_lines s).
Proof.
  unfold image_recognition.extract_text, image_recognition_new.extract_text,
    scan.
  cbn [convert_L ocr_sparse ocr_contrast ocr_mhd bind try_except].
  split; [|reflexivity].
  change (truthy (strip (u ""))) with false. cbv iota.
  destruct (truthy (strip s)) eqn:E.
  - reflexivity.
  - unfold truthy in E. apply negb_false_iff in E.
    now rewrite (blank_clean_lines _ E).
Qed.

(** X10: the clean-up of [extract_text] is idempotent: when an image gives
    the text [s], in either file, an image whose first OCR pass returns
    [s] (the other passes returning nothing) gives [s] again, in both
    files. *)
Theorem X10_extracted_text_is_clean img s :
  image_recognition.extract_text img = Ok s
  \/ image_recognition_new.extract_text img = Ok s ->
  image_recognition.extract_text (scan s) = Ok s
  /\ image_recognition_new.extract_text (scan s) = Ok s.
Proof.
  intros H. apply extract_text_clean in H.
  assert (E : clean_lines s = s).
  { destruct H as [->|[text ->]]; [reflexivity|].
    destruct (clean_lines_trimmed text) as [H1 H2].
    now apply clean_lines_fixed. }
  destruct (extract_text_scan s) as [H1 H2]. now rewrite H1, H2, E.
Qed.

Lemma X10_extracted_text_is_clean_witness :
  let s := u "Weizenmehl Type 405 MHD 12.2026" in
  image_recognition_new.extract_text (scan two_lines) = Ok s
  /\ image_recognition.extract_text (scan s) = Ok s
  /\ image_recognition_new.extract_text (scan s) = Ok s.
Proof.
  intros s.
  assert (H : image_recognition_new.extract_text (scan two_lines) = Ok s)
    by reflexivity.
  split; [exact H|].
  exact (@X10_extracted_text_is_clean (scan two_lines) s (or_intror H)).
Defined.

(** ** X11: the two versions of [extract_text] agree on the first pass *)

(** X11: when the second and the third OCR pass add nothing (each raises
    or returns blank text), [extract_text] of [image_recognition.py]
    returns what [extract_text] of [image_recognition_new.py] returns. *)
Theorem X11_extract_text_parity img :
  blank (ocr_contrast img) = true ->
  blank (ocr_mhd img) = true ->
  image_recognition.extract_text img
  = image_recognition_new.extract_text img.
Proof.
  assert (B : forall t, is_empty (strip t) = true -> truthy (strip t) = false)
    by (intros t Ht; unfold truthy; now rewrite Ht).
  destruct img as [[[]|] [t1|] c2 c3];
    unfold image_recognition.extract_text, image_recognition_new.extract_text,
      blank;
    cbn [convert_L ocr_sparse ocr_contrast ocr_mhd bind try_except];
    intros H2 H3; try reflexivity.
  destruct c2 as [t2|], c3 as [t3|]; cbn [bind try_except];
    rewrite ?(B _ H2), ?(B _ H3);
    (destruct (truthy (strip t1)) eqn:E;
     [ reflexivity
     | fold (clean_lines t1); unfold truthy in E; apply negb_false_iff in E;
       now rewrite (blank_clean_lines _ E) ]).
Qed.

Lemma X11_extract_text_parity_witness :
  blank (ocr_contrast (scan two_lines)) = true
  /\ blank (ocr_mhd (scan two_lines)) = true
  /\ image_recognition.extract_text (scan two_lines)
     = image_recognition_new.extract_text (scan two_lines).
Proof.
  split; [reflexivity|]. split; [reflexivity|].
  exact (@X11_extract_text_parity (scan two_lines) eq_refl eq_refl).
Defined.

(** ** X12: the slug of a label *)

Lemma In_replace_char old new s c :
  In c (replace_char old new s) ->
  (In c s /\ c <> old) \/ In c new.
Proof.
  unfold replace_char. intros H. apply in_flat_map in H.
  destruct H as [x [Hx Hc]].
  destruct (x =? old)%N eqn:E.
  - now right.
  - destruct Hc as [<-|[]]. left. split; [exact Hx|].
    now apply N.eqb_neq.
Qed.

Lemma lower_char_not_upper c : in_range 65 90 (lower_char c) = false.
Proof.
  unfold lower_char. destruct (in_range 65 90 c) eqn:E1.
  - apply in_range_true in E1. apply in_range_false. lia.
  - destruct (in_range 192 222 c && negb (c =? 215)%N) eqn:E2; [|exact E1].
    apply andb_true_iff in E2. destruct E2 as [E2 _].
    apply in_range_true in E2. apply in_range_false. lia.
Qed.

(** X12: the [class_name] of a visual entry, made from the label by
    [lower().replace(' ', '_').replace("'", '').replace(',', '')],
    contains no space, no apostrophe, no comma and no capital letter A-Z,
    whatever the label. *)
Theorem X12_slug_characters class_name c :
  In c (slug class_name) ->
  c <> ch " " /\ c <> ch "'" /\ c <> ch "," /\ in_range 65 90 c = false.
Proof.
  unfold slug. intros H.
  apply In_replace_char in H. destruct H as [[H Hcomma]|[]].
  apply In_replace_char in H. destruct H as [[H Hapos]|[]].
  apply In_replace_char in H. destruct H as [[H Hspace]|H].
  - repeat split; try assumption.
    unfold lower in H. apply in_map_iff in H. destruct H as [x [<- _]].
    apply lower_char_not_upper.
  - destruct H as [<-|[]]. repeat split; discriminate.
Qed.

Lemma X12_slug_characters_witness :
  slug (u "Granny Smith, cook's apple") = u "granny_smith_cooks_apple"
  /\ In (ch "_") (slug (u "Granny Smith, cook's apple"))
  /\ ch "_" <> ch " ".
Proof.
  split; [reflexivity|].
  assert (H : In (ch "_") (slug (u "Granny Smith, cook's apple")))
    by (vm_compute; tauto).
  split; [exact H|].
  exact (proj1 (@X12_slug_characters (u "Granny Smith, cook's apple")
                  (ch "_") H)).
Defined.

(** ** X13: what [extract_text] is made of *)

Lemma fields_cons_shape sep s : exists w ws, fields sep s = w :: ws.
Proof.
  destruct s as [|c r]; simpl; [eauto|].
  destruct (sep c); [eauto|]. destruct (fields sep r); eauto.
Qed.

Lemma fields_app_sep sep a c b :
  sep c = true -> fields sep (a ++ c :: b) = fields sep a ++ fields sep b.
Proof.
  intros Hc. induction a as [|x a IH]; simpl.
  - now rewrite Hc.
  - rewrite IH. destruct (sep x); [reflexivity|].
    destruct (fields_cons_shape sep a) as (w & ws & ->). reflexivity.
Qed.

Lemma lines_of_app a b :
  lines_of (a ++ LF :: b) = lines_of a ++ lines_of b.
Proof.
  unfold lines_of, split_on.
  rewrite fields_app_sep by apply N.eqb_refl.
  now rewrite filter_app, map_app.
Qed.

Lemma lines_of_blank t : truthy (strip t) = false -> lines_of t = [].
Proof.
  intros H. unfold truthy in H. apply negb_false_iff in H.
  destruct (strip t) eqn:E; [|discriminate H].
  apply strip_nil_all_space in E. unfold lines_of, split_on.
  pose proof (fields_all_space (N.eqb LF) _ E) as HF.
  induction HF as [|f fs Hf _ IH]; [reflexivity|].
  simpl. now rewrite (all_space_strip _ Hf).
Qed.

Lemma lines_of_nil : lines_of [] = [].
Proof.
  reflexivity.
Qed.

(** The lines of the outputs collected in [results]. *)
Lemma lines_of_join_two a b :
  lines_of (join newline [a; b]) = lines_of a ++ lines_of b.
Proof.
  simpl join. unfold newline. simpl app. apply lines_of_app.
Qed.

Lemma lines_of_join_three a b c :
  lines_of (join newline [a; b; c]) = lines_of a ++ lines_of b ++ lines_of c.
Proof.
  simpl join. unfold newline. simpl app.
  rewrite lines_of_app. f_equal. apply lines_of_app.
Qed.

(** X13: when the grayscale conversion and the first OCR pass succeed,
    [extract_text] of [image_recognition.py] returns the cleaned lines of
    the first, the second and the third pass, in this order, joined by
    single spaces; a pass that raised contributes no line, and a line read
    by several passes appears once for each of them. *)
Theorem X13_extract_text_concatenates_passes img t1 :
  convert_L img = Ok tt ->
  ocr_sparse img = Ok t1 ->
  image_recognition.extract_text img
  = Ok (join (u " ")
          (lines_of t1 ++ lines_of (text_of (ocr_contrast img))
           ++ lines_of (text_of (ocr_mhd img)))).
Proof.
  destruct img as [c s1 c2 c3].
  cbn [convert_L ocr_sparse ocr_contrast ocr_mhd]. intros -> ->.
  unfold image_recognition.extract_text.
  cbn [convert_L ocr_sparse ocr_contrast ocr_mhd bind try_except].
  assert (R : forall t2 t3,
             join (u " ")
               (lines_of
                  (join newline
                     (let r1 := if truthy (strip t1) then [] ++ [t1] else [] in
                      let r2 := if truthy (strip t2) then r1 ++ [t2] else r1 in
                      if truthy (strip t3) then r2 ++ [t3] else r2)))
             = join (u " ") (lines_of t1 ++ lines_of t2 ++ lines_of t3)).
  { intros t2 t3. cbv zeta. f_equal.
    destruct (truthy (strip t1)) eqn:E1, (truthy (strip t2)) eqn:E2,
      (truthy (strip t3)) eqn:E3;
      rewrite ?(lines_of_blank _ E1), ?(lines_of_blank _ E2),
        ?(lines_of_blank _ E3); cbn [app];
      rewrite ?app_nil_r;
      first [ apply lines_of_join_three | apply lines_of_join_two
            | reflexivity ]. }
  destruct c2 as [t2|], c3 as [t3|]; cbn [bind try_except text_of].
  - f_equal. exact (R t2 t3).
  - f_equal. rewrite <- (R t2 (u "")). reflexivity.
  - f_equal. rewrite <- (R (u "") t3). reflexivity.
  - f_equal. rewrite <- (R (u "") (u "")). reflexivity.
Qed.

Lemma X13_extract_text_concatenates_passes_witness :
  let img := {| convert_L := Ok tt; ocr_sparse := Ok (u "Mehl");
                ocr_contrast := Ok (u "Mehl"); ocr_mhd := Raise |} in
  image_recognition.extract_text img = Ok (u "Mehl Mehl").
Proof.
  intros img.
  exact (@X13_extract_text_concatenates_passes img (u "Mehl")
           eq_refl eq_refl).
Defined.

(** ** X14: names are never empty *)

Lemma strip_prefix_length p s r :
  strip_prefix p s = Some r -> (len r + len p = len s)%nat.
Proof.
  revert s. induction p as [|a p IH]; intros [|b s]; simpl; intros H;
    try discriminate.
  - injection H as <-. reflexivity.
  - injection H as <-. unfold len. simpl. lia.
  - destruct (a =? b)%N; [|discriminate]. apply IH in H.
    unfold len in *. simpl. lia.
Qed.

Lemma re_match_consumes (A : Type) (r : regex) :
  forall (s : str) (k : str -> option A) (x : A),
    re_match r s k = Some x ->
    exists s', k s' = Some x /\ (len s' + min_len r <= len s)%nat.
Proof.
  induction r as [l|p|a IHa b IHb|a IHa b IHb|p|p|p]; intros s k x H.
  - simpl in H. destruct (strip_prefix l s) as [s'|] eqn:E; [|discriminate].
    apply strip_prefix_length in E. exists s'. simpl. split; [exact H | lia].
  - simpl in H. destruct s as [|c s']; [discriminate|].
    destruct (p c); [|discriminate].
    exists s'. split; [exact H|]. unfold len. simpl. lia.
  - simpl in H. apply IHa in H. destruct H as (s1 & H & L1).
    apply IHb in H. destruct H as (s2 & H & L2).
    exists s2. split; [exact H|]. simpl. lia.
  - simpl in H. destruct (re_match a s k) as [y|] eqn:E.
    + simpl in H. injection H as <-. apply IHa in E.
      destruct E as (s1 & E & L). exists s1. split; [exact E|]. simpl. lia.
    + simpl in H. apply IHb in H.
      destruct H as (s1 & H & L). exists s1. split; [exact H|]. simpl. lia.
  - simpl min_len. induction s as [|c s' IH]; simpl in H.
    + exists []. split; [exact H | lia].
    + destruct (p c).
      * match type of H with
        | or_else ?g _ = _ => destruct g as [y|] eqn:E
        end; simpl in H.
        -- injection H as <-. apply IH in E. destruct E as (s1 & E & L).
           exists s1. split; [exact E|]. unfold len in *. simpl. lia.
        -- exists (c :: s'). split; [exact H | lia].
      * exists (c :: s'). split; [exact H | lia].
  - simpl min_len. induction s as [|c s' IH]; simpl in H.
    + destruct (k []) as [y|] eqn:E; simpl in H; [|discriminate].
      injection H as <-. exists []. split; [exact E | lia].
    + destruct (k (c :: s')) as [y|] eqn:E; simpl in H.
      * injection H as <-. exists (c :: s'). split; [exact E | lia].
      * destruct (p c); [|discriminate]. apply IH in H.
        destruct H as (s1 & H & L). exists s1. split; [exact H|].
        unfold len in *. simpl. lia.
  - simpl in H. destruct s as [|c s'].
    + exists []. split; [exact H | simpl; lia].
    + destruct (p c).
      * destruct (k s') as [y|] eqn:E; simpl in H.
        -- injection H as <-. exists s'. split; [exact E|].
           unfold len. simpl. lia.
        -- exists (c :: s'). split; [exact H | simpl; lia].
      * exists (c :: s'). split; [exact H | simpl; lia].
Qed.

(** A match of [re.search] is at least as long as the pattern demands. *)
Lemma re_search_length r s g :
  re_search r s = Some g -> (min_len r <= len g)%nat.
Proof.
  induction s as [|c s' IH]; simpl; intros H.
  - destruct (re_match r [] (fun rest => Some rest)) as [rest|] eqn:E;
      [|discriminate].
    apply re_match_consumes in E. destruct E as (s1 & E & L).
    injection E as ->. injection H as <-.
    unfold len in *. simpl in *. lia.
  - destruct (re_match r (c :: s') (fun rest => Some rest)) as [rest|] eqn:E.
    + apply re_match_consumes in E. destruct E as (s1 & E & L).
      injection E as ->. injection H as <-.
      unfold len in *. rewrite length_firstn. clear IH.
      destruct (List.length rest); simpl in *; lia.
    + now apply IH.
Qed.

Lemma capitalize_not_empty s : s <> [] -> capitalize s <> [].
Proof.
  destruct s as [|c r]; [congruence|]. intros _. unfold capitalize, title_char.
  repeat match goal with
         | |- context [if ?b then _ else _] => destruct b
         end; discriminate.
Qed.

Lemma long_not_empty (n : nat) (s : str) :
  (S n <= len s)%nat -> s <> [].
Proof.
  destruct s; [unfold len; simpl; lia | discriminate].
Qed.

Lemma join_firstn_not_empty sep n first rest :
  first <> [] -> join sep (firstn (S n) (first :: rest)) <> [].
Proof.
  intros H. rewrite firstn_cons. now apply join_nonempty.
Qed.

Lemma truncated_not_empty (title : str) :
  title <> [] ->
  (if (20 <? len title)%nat then firstn 17 title ++ u "..." else title) <> [].
Proof.
  intros H. destruct (20 <? len title)%nat; [|exact H].
  intros E. apply app_eq_nil in E. destruct E as [_ E]. discriminate E.
Qed.

Lemma title_not_empty text :
  image_recognition.get_best_text_for_title text <> [].
Proof.
  unfold image_recognition.get_best_text_for_title. cbv zeta.
  destruct (negb (truthy text)); [discriminate|].
  set (cleaned := strip (collapse_spaces
                           (re_sub_class
                              image_recognition.not_word_space_umlaut
                              (u " ") text))).
  destruct (negb (truthy cleaned) || (len cleaned <? 3)%nat);
    [discriminate|].
  match goal with
  | |- context [filter ?f (split cleaned)] =>
    destruct (filter f (split cleaned)) as [|first rest] eqn:E
  end.
  - cbn [truthy is_empty negb].
    destruct (re_search image_recognition.re_typ cleaned) as [g|] eqn:Eg;
      [|discriminate].
    apply capitalize_not_empty. apply re_search_length in Eg.
    apply (@long_not_empty 3). exact Eg.
  - cbn [truthy is_empty negb].
    assert (Hfirst : first <> []).
    { match type of E with
      | filter ?f _ = _ =>
        assert (Hin : In first (filter f (split cleaned)))
          by (rewrite E; now left)
      end.
      apply filter_In in Hin. destruct Hin as [_ Hf].
      destruct first; [discriminate Hf | discriminate]. }
    match goal with
    | |- context [find ?f image_recognition.common_product_words] =>
      destruct (find f image_recognition.common_product_words)
        as [w|] eqn:Ef
    end.
    + apply find_some in Ef. destruct Ef as [Hin _].
      assert (Hall : Forall (fun w => w <> [])
                            image_recognition.common_product_words)
        by (repeat constructor; discriminate).
      rewrite Forall_forall in Hall. now apply Hall.
    + destruct (5 <=? len (max_by_len first rest))%nat eqn:E5.
      * apply capitalize_not_empty. apply Nat.leb_le in E5.
        apply (@long_not_empty 4). exact E5.
      * destruct (len (first :: rest) =? 1)%nat;
          apply capitalize_not_empty; [exact Hfirst|].
        apply truncated_not_empty.
        now apply (@join_firstn_not_empty (u " ") 1 first rest).
Qed.

Lemma split_not_empty s w : In w (split s) -> w <> [].
Proof.
  unfold split. intros H. apply filter_In in H. destruct H as [_ H].
  destruct w; [discriminate H | discriminate].
Qed.

Lemma title_new_not_empty text :
  image_recognition_new.get_best_text_for_title text <> [].
Proof.
  unfold image_recognition_new.get_best_text_for_title. cbv zeta.
  destruct (negb (truthy text)); [discriminate|].
  set (cleaned := strip (collapse_spaces
                           (re_sub_class
                              image_recognition_new.not_word_space_umlaut
                              (u " ") text))).
  destruct (negb (truthy cleaned) || (len cleaned <? 3)%nat) eqn:Ec;
    [discriminate|].
  apply orb_false_iff in Ec. destruct Ec as [Ec _].
  assert (Hc : cleaned <> []) by (destruct cleaned; [discriminate Ec | discriminate]).
  destruct (split cleaned) as [|first rest] eqn:E.
  - destruct (20 <? len cleaned)%nat.
    + intros H. apply app_eq_nil in H. destruct H as [_ H]. discriminate H.
    + now apply capitalize_not_empty.
  - assert (Hfirst : first <> [])
      by (apply (@split_not_empty cleaned); rewrite E; now left).
    destruct ((5 <=? len (max_by_len first rest))%nat && _) eqn:E5.
    + apply capitalize_not_empty. apply andb_true_iff in E5.
      destruct E5 as [E5 _]. apply Nat.leb_le in E5.
      apply (@long_not_empty 4). exact E5.
    + destruct (len (first :: rest) =? 1)%nat;
        [now apply capitalize_not_empty|].
      destruct (len (first :: rest) =? 2)%nat; apply capitalize_not_empty.
      * now apply join_nonempty.
      * apply truncated_not_empty.
        now apply (@join_firstn_not_empty (u " ") 2 first rest).
Qed.

(** X14: [get_best_text_for_title] never returns the empty string, in
    either file, so the product [identify_product_from_text] returns, a
    registry entry or one synthesized from the text, always has a
    non-empty name and description. *)
Theorem X14_names_not_empty text :
  image_recognition.get_best_text_for_title text <> []
  /\ image_recognition_new.get_best_text_for_title text <> []
  /\ (forall p,
        image_recognition.identify_product_from_text text = Some p ->
        name p <> [] /\ description p <> [])
  /\ (forall p,
        image_recognition_new.identify_product_from_text text = Some p ->
        name p <> [] /\ description p <> []).
Proof.
  split; [apply title_not_empty|]. split; [apply title_new_not_empty|].
  split; intros p H.
  - destruct (identify_cases _ H) as [(key & Hin & _)|(_ & _ & -> & -> & _)].
    + assert (Hall : Forall (fun e => name (snd e) <> []
                                      /\ description (snd e) <> [])
                            image_recognition.PRODUCT_TEXT_MAPPING)
        by (repeat constructor; discriminate).
      rewrite Forall_forall in Hall. exact (Hall _ Hin).
    + split; apply title_not_empty.
  - destruct (identify_new_cases _ H)
      as [(key & Hin & _)|(_ & _ & -> & -> & _)].
    + assert (Hall : Forall (fun e => name (snd e) <> []
                                      /\ description (snd e) <> [])
                            image_recognition_new.PRODUCT_TEXT_MAPPING)
        by (repeat constructor; discriminate).
      rewrite Forall_forall in Hall. exact (Hall _ Hin).
    + split; apply title_new_not_empty.
Qed.

(** ** X15: what the route [/predict] remembers *)

Lemma str_eqb_false_iff a b : str_eqb a b = false <-> a <> b.
Proof.
  unfold str_eqb. destruct (list_eq_dec N.eq_dec a b); split;
    congruence.
Qed.

(** X15: the route [/predict] answers with status 200 exactly when a file
    with a non-empty name was uploaded and the recognizer's [predict]
    succeeds on it; otherwise the session is left as it was.  After a
    success [session['last_prediction']] is the description of the product
    identified from the text when there is one, and otherwise the label
    of the classifier's first result. *)
Theorem X15_route_remembers_first_entry recognizer files session :
  let '(body, status, session') := app.predict recognizer files session in
  (status = 200%Z
   <-> exists file results,
        files = Some file
        /\ app.filename file <> []
        /\ image_recognition.predict recognizer (app.stream file) = Ok results
        /\ body = app.predictions results)
  /\ (status <> 200%Z -> session' = session)
  /\ (forall file img probs top ex tbp,
        status = 200%Z ->
        files = Some file ->
        preprocess_image (app.stream file) = Ok img ->
        top5_prob (app.stream file) = Ok probs ->
        index probs 0 = Ok top ->
        image_recognition.text_channel top img = Ok (ex, tbp) ->
        match tbp, top5_indices (app.stream file) with
        | Some p, _ => session' = Some (description p)
        | None, idx :: _ =>
          exists label,
            index (categories recognizer) idx = Ok label
            /\ session' = Some label
        | None, [] => session' = session
        end).
Proof.
  unfold app.predict. destruct files as [file|].
  2:{ split; [|split]; [|reflexivity|discriminate].
      split; [discriminate | intros (f & r & H & _); discriminate H]. }
  destruct (str_eqb (app.filename file) (u "")) eqn:En.
  { split; [|split]; [|reflexivity|discriminate].
    split; [discriminate|]. intros (f & r & H & Hn & _).
    injection H as <-. unfold str_eqb in En.
    destruct (list_eq_dec N.eq_dec (app.filename file) (u ""));
      [contradiction | discriminate En]. }
  apply str_eqb_false_iff in En.
  destruct (image_recognition.predict recognizer (app.stream file))
    as [results|] eqn:Ep.
  2:{ split; [|split]; [|reflexivity|discriminate].
      split; [discriminate|]. intros (f & r & H & _ & Hp & _).
      injection H as <-. congruence. }
  split; [|split].
  - split; [intros _ | reflexivity]. exists file, results. auto.
  - congruence.
  - intros f img probs top ex tbp _ [= <-] Himg Hp Ht Hch.
    apply predict_shape in Ep.
    destruct Ep as (img' & probs' & top' & ex' & tbp' & vis
                    & Himg' & Hp' & Ht' & Hch' & Hlab & _ & ->).
    rewrite Himg in Himg'. injection Himg' as <-.
    rewrite Hp in Hp'. injection Hp' as <-.
    rewrite Ht in Ht'. injection Ht' as <-.
    rewrite Hch in Hch'. injection Hch' as <- <-.
    destruct tbp as [p|]; [reflexivity|]. simpl text_entries.
    apply index_0 in Ht. destruct Ht as [rest ->].
    destruct (top5_indices (app.stream file)) as [|idx idxs].
    + inversion Hlab. reflexivity.
    + simpl in Hlab. inversion Hlab as [|pr v ps vs Hv _]; subst.
      destruct Hv as (_ & _ & Hl & _). simpl in Hl.
      exists (class_description v). auto.
Qed.

Lemma X15_route_remembers_first_entry_witness :
  app.predict sample_recognizer (Some weizen_request) None
  = (app.predictions weizen_results, 200%Z, Some (u "Weizenmehl")).
Proof.
  pose proof (X15_route_remembers_first_entry sample_recognizer
                (Some weizen_request) None) as H.
  destruct (app.predict sample_recognizer (Some weizen_request) None)
    as [[b st] se] eqn:E.
  destruct H as (_ & _ & H).
  assert (Est : st = 200%Z) by (vm_compute in E; congruence).
  specialize (H weizen_request (picture "der Apfel und die Weizenmehl")
                moderate 0.5%Q (u "der Apfel und die Weizenmehl")
                (Some {| name := u "Weizenmehl";
                         description := u "Weizenmehl";
                         confidence_boost := 1.5 |})
                Est eq_refl eq_refl eq_refl eq_refl eq_refl).
  simpl in H. subst se st.
  assert (Eb : b = app.predictions weizen_results)
    by (vm_compute in E; vm_compute; congruence).
  now subst b.
Defined.

(** ** X16: when [/check-expiry] calls a product safe *)

Lemma Qltb_true (a b : Q) : Qltb a b = true <-> (a < b)%Q.
Proof.
  unfold Qltb. change (negb (Qle_bool b a)) with (Qgtb b a).
  apply Qgtb_true.
Qed.

Lemma Qle_bool_false (a b : Q) : Qle_bool a b = false <-> (b < a)%Q.
Proof.
  rewrite <- Qgtb_true. unfold Qgtb. now rewrite negb_true_iff.
Qed.

(** X16: for a product name and a number of days, [/check-expiry] answers
    [is_safe] true exactly when the date was passed by more than 0 and at
    most 30 days, the name is neither meat nor fish, and the product is a
    dry good, canned, an oil, or at most 14 days over.  So meat and fish
    are never called safe, and the limits of 7 days for dairy products and
    eggs (and of 90 days for oil) do not change the answer. *)
Theorem X16_check_expiry_safe_iff product expiry_date_str days :
  let product_lower := lower product in
  app.is_safe (app.check_expiry product expiry_date_str days) = true
  <-> (0 < days)%Q /\ (days <= 30)%Q
      /\ app.is_meat product_lower = false
      /\ app.is_fish product_lower = false
      /\ (app.is_dry_good product_lower = true
          \/ app.is_canned product_lower = true
          \/ app.is_oil product_lower = true
          \/ (days <= 14)%Q).
Proof.
  cbv zeta. unfold app.check_expiry.
  destruct (Qltb 0 days) eqn:E0; cbn [andb].
  2:{ cbn [app.is_safe]. split; [discriminate|].
      intros (H & _). apply Qltb_true in H. congruence. }
  apply Qltb_true in E0.
  destruct (Qle_bool days 30) eqn:E30.
  2:{ cbn [app.is_safe]. split; [discriminate|].
      intros (_ & H & _). apply Qle_bool_iff in H. congruence. }
  apply Qle_bool_iff in E30.
  assert (E90 : Qle_bool days 90 = true)
    by (apply Qle_bool_iff; lra).
  rewrite E90.
  destruct (app.is_meat (lower product)) eqn:Em;
    destruct (app.is_fish (lower product)) eqn:Ef;
    cbn [orb negb andb];
    try (cbn [app.is_safe app.advise]; split;
         [discriminate | intros (_ & _ & H1 & H2 & _); discriminate]).
  destruct (app.is_dry_good (lower product)) eqn:Ed;
    [cbn [app.is_safe app.advise]; tauto|].
  destruct (app.is_canned (lower product)) eqn:Ec;
    [cbn [app.is_safe app.advise]; tauto|].
  destruct (app.is_oil (lower product)) eqn:Eo;
    [cbn [app.is_safe app.advise]; tauto|].
  destruct (Qle_bool days 7) eqn:E7.
  - apply Qle_bool_iff in E7.
    assert (E14 : Qle_bool days 14 = true) by (apply Qle_bool_iff; lra).
    rewrite E14. apply Qle_bool_iff in E14.
    destruct (app.is_dairy (lower product)); cbn [andb];
      [destruct (contains (u "käse") (lower product));
       cbn [app.is_safe app.advise]; tauto|].
    destruct (app.is_egg (lower product)); cbn [andb];
      cbn [app.is_safe app.advise]; tauto.
  - rewrite !andb_false_r.
    destruct (Qle_bool days 14) eqn:E14; cbn [app.is_safe app.advise].
    + apply Qle_bool_iff in E14. tauto.
    + apply Qle_bool_false in E14. split; [discriminate|].
      intros (_ & _ & _ & _ & [H|[H|[H|H]]]); try discriminate H.
      exfalso. exact (Qlt_not_le _ _ E14 H).
Qed.

(** ** X17: the returned list is ranked *)

Lemma descending_combine (A : Type) (idx : list A) probs :
  descending probs -> descending (List.map snd (combine idx probs)).
Proof.
  intros H. revert idx.
  induction H as [|p ps Hps IH Hall]; intros [|i idx]; simpl;
    try constructor.
  - apply IH.
  - rewrite Forall_forall in *. intros c Hc.
    apply Hall. eapply In_snd_combine, Hc.
Qed.

Lemma descending_firstn n l : descending l -> descending (firstn n l).
Proof.
  intros H. revert n.
  induction H as [|p ps Hps IH Hall]; intros [|n]; simpl; try constructor.
  - apply IH.
  - now apply Forall_firstn.
Qed.

Lemma labelled_confidences self pairs vis :
  Forall2 (labelled self) pairs vis ->
  List.map confidence vis = List.map snd pairs.
Proof.
  induction 1 as [|pr v ps vs Hv _ IH]; simpl; [reflexivity|].
  destruct Hv as (_ & Hc & _). now rewrite Hc, IH.
Qed.

(** X17: in [image_recognition.py], for classifier outputs that are
    probabilities in descending order, the list [predict] returns is in
    descending order of confidence, the text-based entry included. *)
Theorem X17_predict_ranked self file probs top results :
  top5_prob file = Ok probs ->
  index probs 0 = Ok top ->
  Forall (fun c => (0 <= c <= 1)%Q) probs ->
  descending probs ->
  image_recognition.predict self file = Ok results ->
  descending (List.map confidence results).
Proof.
  intros Hp Ht Hunit Hdesc H. apply predict_shape in H.
  destruct H as (img & probs' & top' & ex & tbp & vis
                 & _ & Hp' & Ht' & Hch & Hlab & _ & ->).
  rewrite Hp in Hp'. injection Hp' as <-.
  rewrite Ht in Ht'. injection Ht' as <-.
  rewrite <- firstn_map. apply descending_firstn.
  rewrite map_app, (labelled_confidences Hlab).
  pose proof (descending_combine (top5_indices file) Hdesc) as Hvis.
  destruct tbp as [p|]; [|exact Hvis].
  simpl. constructor; [exact Hvis|].
  apply text_channel_Some in Hch.
  destruct Hch as (_ & _ & _ & Hid & Hspec).
  apply identify_boost in Hid.
  pose proof (descending_top Ht Hdesc) as Htop.
  rewrite Forall_forall in *. intros c Hc. apply In_snd_combine in Hc.
  pose proof (Hunit c Hc) as [_ H1]. pose proof (Htop c Hc) as H2.
  destruct Hid as [Hb|Hb].
  - lra.
  - rewrite Hb. destruct Hspec as [Hs|Hs].
    + apply Qle_trans with top; [exact H2|].
      apply Qle_trans with 0.4%Q; [exact Hs | discriminate].
    + rewrite Hb in Hs. exfalso. revert Hs. apply Qlt_not_le. reflexivity.
Qed.

Lemma X17_predict_ranked_witness :
  image_recognition.predict sample_recognizer apfel = Ok apfel_results
  /\ descending (List.map confidence apfel_results).
Proof.
  assert (Hp : image_recognition.predict sample_recognizer apfel
               = Ok apfel_results) by reflexivity.
  split; [exact Hp|].
  exact (@X17_predict_ranked sample_recognizer apfel unsure 0.3%Q
           apfel_results eq_refl eq_refl unsure_unit unsure_descending Hp).
Defined.

(** ** X18: a registry keyword in [image_recognition_new.py] *)

Lemma registry_new_keys_not_empty :
  Forall (fun e : str * product => fst e <> [])
         image_recognition_new.PRODUCT_TEXT_MAPPING.
Proof.
  repeat constructor; discriminate.
Qed.

(** X18: in [image_recognition_new.py], whenever a registry key occurs
    (ignoring case) in the text extracted from the image, the list
    [predict] returns starts with the text-based entry of a registry
    product whose key occurs in the text, with confidence 0.95, whatever
    the visual confidence and whether or not the filter accepts the
    text. *)
Theorem X18_new_keyword_always_first self file img ex results :
  preprocess_image file = Ok img ->
  image_recognition_new.extract_text img = Ok ex ->
  (exists e, In e image_recognition_new.PRODUCT_TEXT_MAPPING
             /\ matches (lower ex) e = true) ->
  image_recognition_new.predict self file = Ok results ->
  exists key p,
    In (key, p) image_recognition_new.PRODUCT_TEXT_MAPPING
    /\ matches (lower ex) (key, p) = true
    /\ nth_error results 0 = Some (image_recognition_new.text_result p ex)
    /\ confidence (image_recognition_new.text_result p ex) = 0.95%Q.
Proof.
  intros Himg Hex Hkey H. apply predict_new_shape in H.
  destruct H as (img' & probs & ex' & vis & Himg' & _ & Hex' & _ & _ & ->).
  rewrite Himg in Himg'. injection Himg' as <-.
  rewrite Hex in Hex'. injection Hex' as <-.
  assert (Hnb : blank_text ex = false).
  { destruct Hkey as ([key q] & Hin & Hm).
    assert (Hne : ex <> []).
    { intros ->. pose proof registry_new_keys_not_empty as Hk.
      rewrite Forall_forall in Hk. specialize (Hk _ Hin).
      cbn [fst] in Hk. destruct key as [|c key]; [congruence|].
      discriminate Hm. }
    assert (Hs : strip ex = ex).
    { destruct (@extract_text_clean img ex (or_intror Hex)) as [->|[t ->]];
        [reflexivity|]. apply clean_lines_trimmed. }
    unfold blank_text. rewrite Hs.
    destruct ex; [congruence | reflexivity]. }
  destruct (image_recognition_new.identify_product_from_text ex) as [p|]
    eqn:Ei.
  - destruct (identify_new_cases _ Ei) as [(key & Hin & Hm & _)|(Hno & _)].
    + exists key, p. auto.
    + exfalso. exact (@Forall_exists_match _ (lower ex) Hno Hkey).
  - exfalso.
    unfold image_recognition_new.identify_product_from_text in Ei.
    fold (blank_text ex) in Ei. rewrite Hnb in Ei.
    destruct (fst (fold_left (scan_step (lower ex))
                     image_recognition_new.PRODUCT_TEXT_MAPPING (None, 0%Q)))
      as [q|] eqn:E; [discriminate Ei|].
    apply (no_match_of_scan _ registry_new_scores_positive) in E.
    exact (@Forall_exists_match _ (lower ex) E Hkey).
Qed.

Lemma X18_new_keyword_always_first_witness :
  exists results key p,
    image_recognition_new.predict sample_recognizer (upload "Mehl" confident)
    = Ok results
    /\ image_recognition_new.is_meaningful_text (u "Mehl") = true
    /\ In (key, p) image_recognition_new.PRODUCT_TEXT_MAPPING
    /\ matches (lower (u "Mehl")) (key, p) = true
    /\ nth_error results 0
       = Some (image_recognition_new.text_result p (u "Mehl"))
    /\ confidence (image_recognition_new.text_result p (u "Mehl")) = 0.95%Q.
Proof.
  eexists.
  assert (Hp : image_recognition_new.predict sample_recognizer
                 (upload "Mehl" confident)
               = Ok (results_of (image_recognition_new.predict
                                   sample_recognizer
                                   (upload "Mehl" confident))))
    by reflexivity.
  destruct (@X18_new_keyword_always_first sample_recognizer
              (upload "Mehl" confident) (picture "Mehl") (u "Mehl") _
              eq_refl eq_refl
              (ex_intro _ (u "Mehl",
                           {| name := u "Mehl"; description := u "Mehl";
                              confidence_boost := 0.6 |})
                 (conj (or_intror (or_introl eq_refl)) eq_refl))
              Hp) as (key & p & H).
  exists key, p. split; [exact Hp|]. split; [reflexivity | exact H].
Defined.
